(** * tutel/examples/helloworld_data_model.py

    A shallow embedding of the example script and the properties its
    specification states about it.

    The script is glue code: almost every statement is a call into
    argparse, torch or tutel.  The embedding keeps the script's own control
    flow (the two guards with their [raise] statements, the two parameter
    lists computed before the loop, the 100-step loop, the accumulation of
    the average step time) and takes the behaviour of the libraries from a
    [world]: what each call returns, and whether it raises. *)

From Stdlib Require Import ZArith List String Ascii Bool Lia QArith.
From stdpp Require Import gmap strings list fin_maps.
Import ListNotations.
Local Open Scope Z_scope.
Local Open Scope string_scope.
Local Open Scope list_scope.

(** ** Python values the script handles *)

(** Python floats: step times, the loss, [--l_aux_wt].  Their arithmetic is
    IEEE arithmetic, which is not modelled; the script's use of it is, over
    any type with the operations below. *)
Class Float (F : Type) := {
  of_int : Z -> F;          (* int operand promoted to float *)
  fadd : F -> F -> F;       (* x + y *)
  fsub : F -> F -> F;       (* x - y *)
  fdiv : F -> F -> F;       (* x / y *)
  ftruthy : F -> bool       (* bool(x) *)
}.

(** Exact rational arithmetic is one instance; it is used in the examples. *)
#[export] Instance Float_Q : Float Q := {
  of_int := inject_Z;
  fadd := Qplus;
  fsub := Qminus;
  fdiv := Qdiv;
  ftruthy := fun x => negb (Qeq_bool x 0)
}.

Inductive value (F : Type) : Type :=
| VInt (z : Z)
| VStr (s : string)
| VFloat (x : F)
| VBool (b : bool).
Arguments VInt {F} z.
Arguments VStr {F} s.
Arguments VFloat {F} x.
Arguments VBool {F} b.

(** ** Exceptions

    An exception is recorded with the place it comes from: one of the
    script's own [raise] statements (lines 45 and 63), the interpreter
    evaluating a script expression, argparse leaving through [sys.exit],
    or a library call. *)
Record exception := Exc { exc_type : string; exc_msg : string }.

Inductive raised :=
| ScriptRaise (line : nat) (e : exception)
| InterpreterError (line : nat) (e : exception)
| SystemExit
| LibraryError (e : exception).

Inductive outcome (A : Type) :=
| Normal (a : A)
| Raised (r : raised).
Arguments Normal {A} a.
Arguments Raised {A} r.

(** ** argparse

    The part of [argparse] the script uses (CPython 3.8 to 3.11): long
    options taking one value or none, [--opt=value], unambiguous prefixes
    of a long option, and the help option every [ArgumentParser()] starts
    with.  [parse_args] leaves through [sys.exit] both after printing the
    help and after a usage error; the exit status is not modelled.  The
    [--] separator is not modelled. *)
Module argparse.

Inductive arg_type := type_int | type_str | type_float.

Inductive arg_action :=
| store (ty : arg_type)
| store_true
| help.

Section Parser.
Context {F : Type}.

Record argument := Argument {
  option_strings : list string;
  dest : string;
  action : arg_action;
  default : option (value F)   (* None: argparse.SUPPRESS *)
}.

(** [ArgumentParser()]: add_help defaults to True. *)
Definition ArgumentParser : list argument :=
  [ Argument ["-h"; "--help"] "help" help None ].

Fixpoint strip_dashes (s : string) : string :=
  match s with
  | String "-" s' => strip_dashes s'
  | _ => s
  end.

(** [parser.add_argument(flag, type=.., default=.., action=..)] *)
Definition add_argument (p : list argument) (flag : string)
    (act : arg_action) (dflt : value F) : list argument :=
  p ++ [ Argument [flag] (strip_dashes flag) act (Some dflt) ].

(** The parser's table from option string to action. *)
Definition option_table (p : list argument) : list (string * argument) :=
  flat_map (fun a => map (fun s => (s, a)) (option_strings a)) p.

Definition find_exact (p : list argument) (s : string) : option argument :=
  option_map snd (find (fun sa => String.eqb s (fst sa)) (option_table p)).

(** Split at the first '='. *)
Fixpoint split_eq (s : string) : string * option string :=
  match s with
  | EmptyString => (EmptyString, None)
  | String "=" s' => (EmptyString, Some s')
  | String c s' => let '(n, v) := split_eq s' in (String c n, v)
  end.

Definition take2 (s : string) : string := String.substring 0 2 s.
Definition drop2 (s : string) : string := String.substring 2 (String.length s - 2) s.

(** [_get_option_tuples]: the candidates for an option string that is not
    in the table. *)
Definition option_tuples (p : list argument) (tok : string)
    : list (argument * option string) :=
  if String.prefix "--" tok then
    let '(name, explicit) := split_eq tok in
    flat_map (fun sa => if String.prefix name (fst sa)
                        then [(snd sa, explicit)] else [])
             (option_table p)
  else
    flat_map (fun sa =>
        if String.eqb (fst sa) (take2 tok) then [(snd sa, Some (drop2 tok))]
        else if String.prefix tok (fst sa) then [(snd sa, None)] else [])
      (option_table p).

Definition is_digit (c : ascii) : bool :=
  (48 <=? nat_of_ascii c)%nat && (nat_of_ascii c <=? 57)%nat.

Fixpoint all_digits (s : string) : bool :=
  match s with
  | EmptyString => true
  | String c s' => is_digit c && all_digits s'
  end.

(** digits* '.' digits+ *)
Fixpoint dot_digits (s : string) : bool :=
  match s with
  | EmptyString => false
  | String "." s' => negb (String.eqb s' "") && all_digits s'
  | String c s' => is_digit c && dot_digits s'
  end.

(** ['$'] matches at the end of the string and before a newline that
    ends it. *)
Fixpoint before_final_newline (s : string) : string :=
  match s with
  | EmptyString => EmptyString
  | String c s' =>
      match s' with
      | EmptyString => if (nat_of_ascii c =? 10)%nat then EmptyString else s
      | _ => String c (before_final_newline s')
      end
  end.

(** [_negative_number_matcher]: ^-\d+$|^-\d*\.\d+$, on tokens of ASCII
    characters. *)
Definition negative_number_like (s : string) : bool :=
  match s with
  | String "-" s' =>
      let d := before_final_newline s' in
      (negb (String.eqb d "") && all_digits d) || dot_digits d
  | _ => false
  end.

Fixpoint has_space (s : string) : bool :=
  match s with
  | EmptyString => false
  | String " " _ => true
  | String _ s' => has_space s'
  end.

Inductive token_class :=
| Positional
| Optional (a : argument) (explicit : option string)
| Ambiguous
| Unknown.

(** [_parse_optional] *)
Definition classify (p : list argument) (tok : string) : token_class :=
  match tok with
  | EmptyString => Positional
  | String c _ =>
    if negb (Ascii.eqb c "-") then Positional
    else match find_exact p tok with
    | Some a => Optional a None
    | None =>
      if (String.length tok =? 1)%nat then Positional
      else
        let '(name, explicit) := split_eq tok in
        match explicit, find_exact p name with
        | Some v, Some a => Optional a (Some v)
        | _, _ =>
          match option_tuples p tok with
          | _ :: _ :: _ => Ambiguous
          | [(a, e)] => Optional a e
          | [] =>
            if negative_number_like tok then Positional
            else if has_space tok then Positional
            else Unknown
          end
        end
    end
  end.

(** Python's [int(s)] and [float(s)] on a string are the interpreter's. *)
Variable py_int : string -> option Z.
Variable py_float : string -> option F.

Definition convert (ty : arg_type) (s : string) : option (value F) :=
  match ty with
  | type_int => VInt <$> py_int s
  | type_str => Some (VStr s)
  | type_float => VFloat <$> py_float s
  end.

(** The namespace before any argument is read: every default that is not
    suppressed. *)
Definition defaults (p : list argument) : gmap string (value F) :=
  fold_left (fun ns a => match default a with
                         | Some v => <[dest a := v]> ns
                         | None => ns
                         end) p ∅.

(** The left-to-right scan of the command line.  No positional argument is
    declared, so a token that is not consumed by an option is an error. *)
Fixpoint consume (p : list argument) (toks : list string)
    (ns : gmap string (value F)) : outcome (gmap string (value F)) :=
  match toks with
  | [] => Normal ns
  | tok :: rest =>
    match classify p tok with
    | Optional a explicit =>
      match action a with
      | help => Raised SystemExit
      | store_true =>
        match explicit with
        | Some _ => Raised SystemExit
        | None => consume p rest (<[dest a := VBool true]> ns)
        end
      | store ty =>
        match explicit, rest with
        | Some s, _ =>
          match convert ty s with
          | Some v => consume p rest (<[dest a := v]> ns)
          | None => Raised SystemExit
          end
        | None, s :: rest' =>
          match classify p s with
          | Positional =>
            match convert ty s with
            | Some v => consume p rest' (<[dest a := v]> ns)
            | None => Raised SystemExit
            end
          | _ => Raised SystemExit
          end
        | None, [] => Raised SystemExit
        end
      end
    | _ => Raised SystemExit
    end
  end.

(** [parser.parse_args()] on [sys.argv[1:]] *)
Definition parse_args (p : list argument) (argv : list string)
    : outcome (gmap string (value F)) :=
  consume p argv (defaults p).

End Parser.
Arguments argument F : clear implicits.

End argparse.

(** ** What the libraries hand to the script *)

(** The object returned by [system_init.init_data_model_parallel()], with
    the attributes the script reads. *)
Record parallel_env := {
  global_rank : Z;
  global_size : Z;
  data_rank : Z;
  model_rank : Z;
  group_count : Z;
  is_distributed : bool;
  local_device_index : Z       (* parallel_env.local_device.index *)
}.

(** A model parameter, with what lines 103 and 104 look at. *)
Record parameter := {
  has_skip_allreduce : bool;   (* hasattr(p, 'skip_allreduce') *)
  requires_grad : bool;        (* getattr(p, 'requires_grad', False) *)
  grad_is_not_None : bool      (* p.grad is not None *)
}.

Inductive dtype := float32 | float16 | bfloat16.

Inductive group := global_group | data_group | model_group.

Section Script.
Context {F : Type} `{Float F}.

(** The arguments of [print] and [dist_print]: the format string is fixed
    by the constructor, the fields are the values substituted in it. *)
Inductive message :=
| MDevice (rank data model : Z)                       (* line 46 *)
| MStatistics (local_count shared_count : Z)          (* line 82 *)
| MModel                                              (* line 90 *)
| MBenchmark (world_size : Z) (dt : string)
    (model_dim hidden_size samples num_local_experts topK device groups : Z)
                                                      (* line 99 *)
| MStep (i : nat) (loss step_time : F)                (* line 129 *)
| MSummary (average_time : F).                        (* line 135 *)

(** What the script does, in order. *)
Inductive event :=
| Einit_affinity                                      (* line 8 *)
| Elogging_basicConfig                                (* line 23 *)
| Eparse_args (argv : list string)                    (* line 38 *)
| Einit_data_model_parallel                           (* line 40 *)
| Eprint (m : message)                                (* line 46 *)
| Etorch_device (index : Z)                           (* line 54 *)
| Eset_default_dtype (d : dtype)                      (* lines 57, 59, 61 *)
| Emodule_init                                        (* line 68 *)
| Emoe_layer (k : Z) (fp32_gate : bool)
    (count_per_node hidden_size_per_expert model_dim seed : Z)
                                                      (* lines 70-76 *)
| Emodule_to_device                                   (* line 77 *)
| Eget_parameter_iterator (param_type : string)       (* lines 80, 81 *)
| Edist_print (m : message)                           (* lines 82, 90, 99, 129, 135 *)
| ESGD                                                (* line 92 *)
| Emanual_seed (seed : Z)                             (* line 94 *)
| Erandn (shape : list Z)                             (* line 95 *)
| Edetach                                             (* line 95 *)
| Enumpy                                              (* line 95 *)
| Etensor (d : dtype)                                 (* line 95 *)
| ELongTensor (n : Z)                                 (* line 96 *)
| Erandom_ (to : Z)                                   (* line 96 *)
| Etensor_to_device                                   (* line 96 *)
| Emodel_parameters                                   (* lines 103, 104 *)
| Ecuda_synchronize                                   (* lines 108, 127 *)
| Etime_time                                          (* lines 109, 128 *)
| Ezero_grad                                          (* line 110 *)
| Eforward                                            (* line 112 *)
| Enll_loss (target : list Z)                         (* line 113 *)
| Eadd_l_aux                                          (* line 115 *)
| Ebackward                                           (* line 116 *)
| Egrad_div (line p : nat) (n : Z)                    (* lines 119, 123 *)
| Eall_reduce (p : nat) (g : group)                   (* lines 120, 124 *)
| Eoptimizer_step                                     (* line 125 *)
| Eloss_data.                                         (* line 129 *)

(** Everything outside the script.  The parameters of the model are
    objects shared with the libraries: [parameters] gives their attributes
    as lines 103 and 104 find them, [grad_after_backward] what [p.grad] is
    when lines 119 and 123 read it again, after the backward pass of a
    step. *)
Record world := {
  argv : list string;                       (* sys.argv[1:] *)
  py_int : string -> option Z;              (* int(s) *)
  py_float : string -> option F;            (* float(s) *)
  oracle : nat -> option exception;         (* does the n-th library call raise? *)
  penv : parallel_env;                      (* init_data_model_parallel() *)
  local_experts_numel : list Z;             (* numel of each 'local_experts' parameter *)
  gate_numel : list Z;                      (* numel of each 'gate' parameter *)
  parameters : list parameter;              (* model.parameters(), as they are at line 103 *)
  grad_after_backward : nat -> nat -> bool; (* step, parameter: p.grad is not None after backward() *)
  raw_random : Z -> Z -> Z;                 (* seed, position: the generator's raw draws *)
  clock : nat -> F;                         (* time.time(), by position among the library calls *)
  loss_value : nat -> F                     (* float(loss.data) at a step *)
}.

(** ** The interpreter state and the monad of script statements *)

Record state := {
  trace : list event;          (* oldest first *)
  ncalls : nat;                (* library calls made so far *)
  default_dtype : dtype        (* torch.get_default_dtype() *)
}.

Definition initial : state :=
  {| trace := []; ncalls := 0; default_dtype := float32 |}.

Definition M (A : Type) : Type := state -> outcome A * state.

Definition ret {A} (a : A) : M A := fun s => (Normal a, s).

Definition bind {A B} (m : M A) (k : A -> M B) : M B :=
  fun s => match m s with
           | (Normal a, s') => k a s'
           | (Raised r, s') => (Raised r, s')
           end.

Definition raise {A} (r : raised) : M A := fun s => (Raised r, s).

Definition record (e : event) (s : state) : state :=
  {| trace := trace s ++ [e]; ncalls := ncalls s; default_dtype := default_dtype s |}.

Definition called (e : event) (s : state) : state :=
  {| trace := trace s ++ [e]; ncalls := S (ncalls s); default_dtype := default_dtype s |}.

Notation "x <- m ;; k" := (bind m (fun x => k))
  (at level 100, m at next level, right associativity, only parsing).
Notation "m >> k" := (bind m (fun _ => k))
  (at level 100, right associativity, only parsing).

Variable w : world.

(** A library call: it is recorded, and it raises when the world says so.
    [r] gives the value it returns, by its position among the calls. *)
Definition call_ret {A} (e : event) (r : nat -> A) : M A :=
  fun s => match oracle w (ncalls s) with
           | Some x => (Raised (LibraryError x), called e s)
           | None => (Normal (r (ncalls s)), called e s)
           end.

Definition call (e : event) : M unit := call_ret e (fun _ => tt).

(** [for x in l: acc = body(acc, x)] *)
Fixpoint for_each {A X} (l : list X) (body : A -> X -> M A) (acc : A) : M A :=
  match l with
  | [] => ret acc
  | x :: l' => acc' <- body acc x ;; for_each l' body acc'
  end.

(** Attribute reads on the argparse namespace. *)
Definition attribute_error {A} (line : nat) (name : string) : M A :=
  raise (InterpreterError line (Exc "AttributeError" name)).

Definition get_int (line : nat) (ns : gmap string (value F)) (name : string) : M Z :=
  match ns !! name with
  | Some (VInt z) => ret z
  | _ => attribute_error line name
  end.

Definition get_str (line : nat) (ns : gmap string (value F)) (name : string) : M string :=
  match ns !! name with
  | Some (VStr x) => ret x
  | _ => attribute_error line name
  end.

Definition get_bool (line : nat) (ns : gmap string (value F)) (name : string) : M bool :=
  match ns !! name with
  | Some (VBool b) => ret b
  | _ => attribute_error line name
  end.

Definition get_float (line : nat) (ns : gmap string (value F)) (name : string) : M F :=
  match ns !! name with
  | Some (VFloat x) => ret x
  | _ => attribute_error line name
  end.

(** *** Lines 25-38: the parser and [parse_args] *)

Import argparse.

Definition parser : list (argument F) :=
  let p := ArgumentParser in
  let p := add_argument p "--local_rank" (store type_int) (VInt (-1)) in
  let p := add_argument p "--batch_size" (store type_int) (VInt 16) in
  let p := add_argument p "--num_tokens" (store type_int) (VInt 1024) in
  let p := add_argument p "--model_dim" (store type_int) (VInt 2048) in
  let p := add_argument p "--hidden_size" (store type_int) (VInt 2048) in
  let p := add_argument p "--num_local_experts" (store type_int) (VInt 2) in
  let p := add_argument p "--dtype" (store type_str) (VStr "float32") in
  let p := add_argument p "--fp32_gate" store_true (VBool false) in
  let p := add_argument p "--top" (store type_int) (VInt 2) in
  let p := add_argument p "--l_aux_wt" (store type_float) (VFloat (of_int 0)) in
  let p := add_argument p "--group_count" (store type_int) (VInt 1) in
  p.

Definition parse : M (gmap string (value F)) :=
  fun s => (parse_args (py_int w) (py_float w) parser (argv w),
            record (Eparse_args (argv w)) s).

(** *** Lines 44-45: the guard on the launch mode *)

Definition not_distributed_error : raised :=
  ScriptRaise 45 (Exc "RuntimeError" (String (ascii_of_nat 10)
    "The current session is not launched in distributed mode. Please run the program with: python3 -m torch.distributed.launch ..")).

Definition check_distributed (parallel_env : parallel_env) : M unit :=
  if negb (is_distributed parallel_env) then raise not_distributed_error
  else ret tt.

(** *** Lines 56-63: the default dtype *)

Definition set_default_dtype (d : dtype) : M unit :=
  fun s => (Normal tt,
            {| trace := trace s ++ [Eset_default_dtype d];
               ncalls := ncalls s; default_dtype := d |}).

Definition get_default_dtype : M dtype :=
  fun s => (Normal (default_dtype s), s).

Definition unrecognized_dtype_error (d : string) : raised :=
  ScriptRaise 63 (Exc "Exception" (String.append "Unrecognized data type specified: " d)).

Definition select_dtype (d : string) : M unit :=
  if String.eqb d "float32" then set_default_dtype float32
  else if String.eqb d "float16" then set_default_dtype float16
  else if String.eqb d "bfloat16" then set_default_dtype bfloat16
  else raise (unrecognized_dtype_error d).

(** *** Lines 66-89: [ExampleModel()] *)

Definition sum (l : list Z) : Z := fold_left Z.add l 0.

Definition ExampleModel (parallel_env : parallel_env)
    (args : gmap string (value F))
    (top_value num_local_experts hidden_size model_dim : Z) : M unit :=
  call Emodule_init >>
  fp32_gate <- get_bool 71 args "fp32_gate" ;;
  call (Emoe_layer top_value fp32_gate num_local_experts hidden_size model_dim
          (model_rank parallel_env + 1)) >>
  call Emodule_to_device >>
  local_count <- call_ret (Eget_parameter_iterator "local_experts")
                   (fun _ => sum (local_experts_numel w)) ;;
  shared_count <- call_ret (Eget_parameter_iterator "gate")
                    (fun _ => sum (gate_numel w)) ;;
  call (Edist_print (MStatistics local_count shared_count)).

(** *** Line 96: the targets

    [torch.LongTensor(n)] raises on a negative size.  [random_(to)] puts in
    every element a raw draw of the generator reduced modulo [to], which is
    how torch samples from 0 .. to-1. *)
Definition LongTensor (n : Z) : M nat :=
  call (ELongTensor n) >>
  if (n <? 0)%Z then
    raise (LibraryError (Exc "RuntimeError" "Trying to create tensor with negative dimension"))
  else ret (Z.to_nat n).

Definition random_ (seed : Z) (offset : Z) (size : nat) (to : Z) : M (list Z) :=
  call_ret (Erandom_ to)
    (fun _ => map (fun k => raw_random w seed (offset + Z.of_nat k) mod to)
                  (seq 0 size)).

(** *** Lines 103-104: the two parameter lists

    A parameter is referred to by its position in [model.parameters()]. *)
Definition for_all_reduce (p : parameter) : bool :=
  negb (has_skip_allreduce p) && requires_grad p && grad_is_not_None p.

Definition select (keep : parameter -> bool) (ps : list parameter) : list nat :=
  map fst (List.filter (fun ip => keep (snd ip))
             (combine (seq 0 (List.length ps)) ps)).

Definition params_for_all_reduce : list nat :=
  select for_all_reduce (parameters w).

Definition params_for_replicas_all_reduce : list nat :=
  select (fun p => negb (for_all_reduce p)) (parameters w).

(** *** Lines 117-124: [p.grad /= n; dist.all_reduce(p.grad, group=g)] *)

Definition reduce_grads (line : nat) (i : nat) (ps : list nat) (n : Z) (g : group)
    : M unit :=
  for_each ps (fun _ p =>
    (if grad_after_backward w i p then call (Egrad_div line p n)
     else raise (InterpreterError line
            (Exc "TypeError" "unsupported operand type(s) for /=: 'NoneType' and 'int'"))) >>
    call (Eall_reduce p g)) tt.

(** *** Lines 106-132: one training step *)

Definition num_steps : Z := 100.

Definition step (parallel_env : parallel_env) (args : gmap string (value F))
    (y : list Z) (average_time : F) (i : nat) : M F :=
  call Ecuda_synchronize >>
  t_start <- call_ret Etime_time (clock w) ;;
  call Ezero_grad >>
  call Eforward >>
  call (Enll_loss y) >>
  l_aux_wt <- get_float 114 args "l_aux_wt" ;;
  (if ftruthy l_aux_wt then call Eadd_l_aux else ret tt) >>
  call Ebackward >>
  (if (global_size parallel_env >? 1)%Z
   then reduce_grads 119 i params_for_all_reduce
          (global_size parallel_env) global_group
   else ret tt) >>
  (if (group_count parallel_env >? 1)%Z
   then reduce_grads 123 i params_for_replicas_all_reduce
          (group_count parallel_env) data_group
   else ret tt) >>
  call Eoptimizer_step >>
  call Ecuda_synchronize >>
  t_stop <- call_ret Etime_time (clock w) ;;
  loss <- call_ret Eloss_data (fun _ => loss_value w i) ;;
  call (Edist_print (MStep i loss (fsub t_stop t_start))) >>
  ret (if (Z.of_nat i + 10 >=? num_steps)%Z
       then fadd average_time (fsub t_stop t_start)
       else average_time).

(** *** The module body *)

Definition script : M unit :=
  call Einit_affinity >>                                          (* 8 *)
  call Elogging_basicConfig >>                                    (* 23 *)
  args <- parse ;;                                                (* 25-38 *)
  parallel_env <- call_ret Einit_data_model_parallel
                    (fun _ => penv w) ;;                          (* 40 *)
  let args := <["local_rank" := VInt (local_device_index parallel_env)]> args in
                                                                  (* 42 *)
  check_distributed parallel_env >>                               (* 44-45 *)
  call (Eprint (MDevice (global_rank parallel_env)
                  (data_rank parallel_env) (model_rank parallel_env))) >>
                                                                  (* 46 *)
  batch_size <- get_int 48 args "batch_size" ;;
  num_tokens <- get_int 49 args "num_tokens" ;;
  model_dim <- get_int 50 args "model_dim" ;;
  hidden_size <- get_int 51 args "hidden_size" ;;
  num_local_experts <- get_int 52 args "num_local_experts" ;;
  top_value <- get_int 53 args "top" ;;
  local_rank <- get_int 54 args "local_rank" ;;
  call (Etorch_device local_rank) >>                              (* 54 *)
  dt <- get_str 56 args "dtype" ;;
  select_dtype dt >>                                              (* 56-63 *)
  ExampleModel parallel_env args top_value num_local_experts
    hidden_size model_dim >>                                      (* 89 *)
  call (Edist_print MModel) >>                                    (* 90 *)
  call Emodel_parameters >>
  call ESGD >>                                                    (* 92 *)
  call (Emanual_seed (global_rank parallel_env)) >>               (* 94 *)
  call (Erandn [batch_size; num_tokens; model_dim]) >>
  call Edetach >>
  call Enumpy >>
  d <- get_default_dtype ;;
  call (Etensor d) >>                                             (* 95 *)
  size <- LongTensor batch_size ;;
  y <- random_ (global_rank parallel_env)
         (batch_size * num_tokens * model_dim) size 1 ;;
  call Etensor_to_device >>                                       (* 96 *)
  call (Edist_print (MBenchmark (global_size parallel_env) dt model_dim
          hidden_size (batch_size * num_tokens) num_local_experts top_value
          local_rank (group_count parallel_env))) >>              (* 98-99 *)
  call Emodel_parameters >>                                       (* 103 *)
  call Emodel_parameters >>                                       (* 104 *)
  average_time <- for_each (seq 0 (Z.to_nat num_steps))
                    (step parallel_env args y) (of_int 0) ;;  (* 101-132 *)
  let average_time := fdiv average_time (of_int 10) in            (* 134 *)
  call (Edist_print (MSummary average_time)).                     (* 135 *)

Definition run : outcome unit * state := script initial.

End Script.

(** * Vocabulary of the properties *)

Section Vocabulary.
Context {F : Type} `{Float F}.
Import argparse.

(** [wp m Q E s]: run from [s], the statement [m] either returns [a] in a
    state satisfying [Q a], or raises [r] in a state satisfying [E r]. *)
Definition wp {A} (m : M A) (Q : A -> state -> Prop)
    (E : raised -> state (F := F) -> Prop) (s : state) : Prop :=
  match m s with
  | (Normal a, s') => Q a s'
  | (Raised r, s') => E r s'
  end.

Definition type_ok (act : arg_action) (v : value F) : bool :=
  match act, v with
  | store type_int, VInt _ => true
  | store type_str, VStr _ => true
  | store type_float, VFloat _ => true
  | store_true, VBool _ => true
  | _, _ => false
  end.

(** Every declared attribute is present, with a value of its type. *)
Definition typed (ns : gmap string (value F)) : Prop :=
  forall a d, In a parser -> default a = Some d ->
    exists v, ns !! dest a = Some v /\ type_ok (action a) v = true.

(** The result of [parse_args] in a world. *)
Definition parsed (w : world (F := F)) : outcome (gmap string (value F)) :=
  parse_args (py_int w) (py_float w) parser (argv w).

(** Events of model construction (lines 66-89) and of a training step
    (lines 106-129). *)
Definition construction_or_training (e : event (F := F)) : bool :=
  match e with
  | Emodule_init | Emoe_layer _ _ _ _ _ _ | Emodule_to_device
  | Eget_parameter_iterator _
  | Edist_print (MStatistics _ _)
  | Ecuda_synchronize | Etime_time | Ezero_grad | Eforward | Enll_loss _
  | Eadd_l_aux | Ebackward | Egrad_div _ _ _ | Eall_reduce _ _
  | Eoptimizer_step | Eloss_data | Edist_print (MStep _ _ _) => true
  | _ => false
  end.

(** The dtypes lines 56-61 know, and the value of [--dtype] after parsing. *)
Definition recognised_dtypes : list string := ["float32"; "float16"; "bfloat16"].

Definition dtype_argument (w : world (F := F)) : option string :=
  match parsed w with
  | Normal ns => match ns !! "dtype" with
                 | Some (VStr d) => Some d
                 | _ => None
                 end
  | Raised _ => None
  end.

(** Raised by one of the script's own [raise] statements. *)
Definition script_raise (r : raised) : Prop :=
  match r with
  | ScriptRaise _ _ => True
  | _ => False
  end.

(** The torch dtype a [--dtype] value names. *)
Definition torch_dtype (d : string) : option dtype :=
  if String.eqb d "float32" then Some float32
  else if String.eqb d "float16" then Some float16
  else if String.eqb d "bfloat16" then Some bfloat16
  else None.

(** The state after [torch.set_default_dtype(d)]. *)
Definition with_default_dtype (d : dtype) (s : state (F := F)) : state :=
  {| trace := trace s ++ [Eset_default_dtype d];
     ncalls := ncalls s; default_dtype := d |}.

(** An invariant of the trace: every event so far satisfies [P]. *)
Definition trace_inv (P : event (F := F) -> Prop) (s : state) : Prop :=
  Forall P (trace s).

(** What the script can pass to the calls whose arguments the claims are
    about: the targets of [nll_loss] are [batch_size] zeros; line 119
    divides, and reduces over the global group, parameters of
    [params_for_all_reduce] only; line 123 divides, and reduces over the
    data group, parameters of [params_for_replicas_all_reduce] only. *)
Definition allowed (w : world (F := F)) (e : event (F := F)) : Prop :=
  match e with
  | Enll_loss y =>
      forall ns b, parsed w = Normal ns ->
        ns !! "batch_size" = Some (VInt b) -> y = repeat 0 (Z.to_nat b)
  | Egrad_div line p n =>
      (line = 119%nat /\ In p (params_for_all_reduce w)) \/
      (line = 123%nat /\ In p (params_for_replicas_all_reduce w))
  | Eall_reduce p g =>
      (g = global_group /\ In p (params_for_all_reduce w)) \/
      (g = data_group /\ In p (params_for_replicas_all_reduce w))
  | _ => True
  end.

(** The work of the branch guarded by [global_size > 1] (lines 117-120). *)
Definition global_reduction (e : event (F := F)) : bool :=
  match e with
  | Egrad_div 119 _ _ => true
  | Eall_reduce _ global_group => true
  | _ => false
  end.

(** No library call made so far has raised. *)
Definition no_failure (w : world (F := F)) (s : state (F := F)) : Prop :=
  forall j, (j < ncalls s)%nat -> oracle w j = None.

(** [r] is the exception of the library call that raised, and that call
    is the last one made. *)
Definition propagated (w : world (F := F)) (r : raised)
    (s : state (F := F)) : Prop :=
  forall k x, (k < ncalls s)%nat -> oracle w k = Some x ->
    r = LibraryError x /\ ncalls s = S k.




(** The phase an event belongs to: 1 argument parsing, 2 initialisation of
    the distributed environment, 3 model construction and training loop,
    4 timing summary.  Phase 0 is what the script does before it parses
    its arguments: NUMA affinity and logging set-up. *)
Definition phase (e : event (F := F)) : nat :=
  match e with
  | Einit_affinity | Elogging_basicConfig => 0
  | Eparse_args _ => 1
  | Einit_data_model_parallel | Eprint (MDevice _ _ _) => 2
  | Edist_print (MSummary _) => 4
  | _ => 3
  end.

(** Starting in phase [c], the events stay in their phase or enter the
    next one: no phase is skipped and none is returned to. *)
Fixpoint in_order (c : nat) (t : list (event (F := F))) : bool :=
  match t with
  | [] => true
  | e :: t' => (c <=? phase e)%nat && (phase e <=? S c)%nat
               && in_order (phase e) t'
  end.

Fixpoint last_phase (c : nat) (t : list (event (F := F))) : nat :=
  match t with
  | [] => c
  | e :: t' => last_phase (phase e) t'
  end.

Definition phased (k : nat) (s : state (F := F)) : Prop :=
  in_order 0 (trace s) = true /\ last_phase 0 (trace s) = k.

(** The value of an integer argument after parsing. *)
Definition int_argument (w : world (F := F)) (name : string) : option Z :=
  match parsed w with
  | Normal ns => match ns !! name with
                 | Some (VInt z) => Some z
                 | _ => None
                 end
  | Raised _ => None
  end.

(** A valid distributed launch with valid arguments: every library call
    returns, the session is distributed, the command line parses with a
    recognised [--dtype] and a batch size that is not negative, and
    [backward()] leaves a gradient on every parameter whose gradient
    lines 119 and 123 divide. *)
Record valid_run (w : world (F := F)) : Prop := {
  libraries_return : forall n, oracle w n = None;
  launched_distributed : is_distributed (penv w) = true;
  dtype_recognised :
    exists d, dtype_argument w = Some d /\ In d recognised_dtypes;
  batch_size_valid :
    exists b, int_argument w "batch_size" = Some b /\ 0 <= b;
  gradients_present : forall i p,
    (1 < global_size (penv w) /\ In p (params_for_all_reduce w)) \/
    (1 < group_count (penv w) /\ In p (params_for_replicas_all_reduce w)) ->
    grad_after_backward w i p = true
}.

(** The 'STEP-i: DONE' lines of a trace, as (i, step_time). *)
Definition step_line (e : event (F := F)) : list (nat * F) :=
  match e with
  | Edist_print (MStep i _ t) => [(i, t)]
  | _ => []
  end.

Definition step_times (t : list (event (F := F))) : list (nat * F) :=
  flat_map step_line t.

(** The '[Summary]' lines of a trace, as the value printed. *)
Definition summary_line (e : event (F := F)) : list F :=
  match e with
  | Edist_print (MSummary v) => [v]
  | _ => []
  end.

Definition summaries (t : list (event (F := F))) : list F :=
  flat_map summary_line t.

(** The iterations of the training loop in a trace: each one calls
    [optimizer.step()] once. *)
Definition is_optimizer_step (e : event (F := F)) : bool :=
  match e with
  | Eoptimizer_step => true
  | _ => false
  end.

Definition iterations (t : list (event (F := F))) : nat :=
  List.length (List.filter is_optimizer_step t).

(** Line 131, and what lines 101 and 132 accumulate over the step lines
    printed so far. *)
Definition late (i : nat) : bool := Z.of_nat i + 10 >=? num_steps.

Definition accumulate (times : list (nat * F)) : F :=
  fold_left fadd (map snd (List.filter (fun p => late (fst p)) times))
            (of_int 0).

Definition progress (times : list (nat * F)) (n : nat)
    (s : state (F := F)) : Prop :=
  step_times (trace s) = times /\ iterations (trace s) = n /\
  summaries (trace s) = [].

(** The values of the other arguments after parsing. *)
Definition bool_argument (w : world (F := F)) (name : string) : option bool :=
  match parsed w with
  | Normal ns => match ns !! name with
                 | Some (VBool b) => Some b
                 | _ => None
                 end
  | Raised _ => None
  end.

Definition float_argument (w : world (F := F)) (name : string) : option F :=
  match parsed w with
  | Normal ns => match ns !! name with
                 | Some (VFloat x) => Some x
                 | _ => None
                 end
  | Raised _ => None
  end.

(** Where the arguments of the library calls come from: the command line,
    the object returned by init_data_model_parallel(), or the default
    dtype set at lines 56-61; and under which guard a call is made. *)
Definition wired (w : world (F := F)) (e : event (F := F)) : Prop :=
  match e with
  | Eparse_args a => a = argv w
  | Eprint (MDevice r d m) =>
      r = global_rank (penv w) /\ d = data_rank (penv w) /\
      m = model_rank (penv w)
  | Etorch_device i => i = local_device_index (penv w)
  | Eset_default_dtype d | Etensor d =>
      exists ds, dtype_argument w = Some ds /\ torch_dtype ds = Some d
  | Emoe_layer k fp cnt hid dim seed =>
      int_argument w "top" = Some k /\
      bool_argument w "fp32_gate" = Some fp /\
      int_argument w "num_local_experts" = Some cnt /\
      int_argument w "hidden_size" = Some hid /\
      int_argument w "model_dim" = Some dim /\
      seed = model_rank (penv w) + 1
  | Emanual_seed sd => sd = global_rank (penv w)
  | Erandn shape =>
      exists b t m,
        int_argument w "batch_size" = Some b /\
        int_argument w "num_tokens" = Some t /\
        int_argument w "model_dim" = Some m /\ shape = [b; t; m]
  | ELongTensor n => int_argument w "batch_size" = Some n
  | Erandom_ to => to = 1
  | Edist_print (MStatistics l g) =>
      l = sum (local_experts_numel w) /\ g = sum (gate_numel w)
  | Edist_print (MBenchmark ws dt md hs samples nle topk dev groups) =>
      ws = global_size (penv w) /\ dtype_argument w = Some dt /\
      int_argument w "model_dim" = Some md /\
      int_argument w "hidden_size" = Some hs /\
      (exists b t, int_argument w "batch_size" = Some b /\
                   int_argument w "num_tokens" = Some t /\
                   samples = b * t) /\
      int_argument w "num_local_experts" = Some nle /\
      int_argument w "top" = Some topk /\
      dev = local_device_index (penv w) /\
      groups = group_count (penv w)
  | Edist_print (MStep i l _) => l = loss_value w i
  | Eadd_l_aux =>
      exists x, float_argument w "l_aux_wt" = Some x /\ ftruthy x = true
  | Egrad_div line p n =>
      (line = 119%nat /\ 1 < global_size (penv w) /\
       n = global_size (penv w)) \/
      (line = 123%nat /\ 1 < group_count (penv w) /\
       n = group_count (penv w))
  | Eall_reduce p g =>
      (g = global_group /\ 1 < global_size (penv w)) \/
      (g = data_group /\ 1 < group_count (penv w))
  | _ => True
  end.

(** What [p.grad /= n] raises at a line when [p.grad] is None. *)
Definition grad_type_error (line : nat) : raised :=
  InterpreterError line
    (Exc "TypeError" "unsupported operand type(s) for /=: 'NoneType' and 'int'").

(** What [torch.LongTensor(n)] raises for a negative [n]. *)
Definition negative_dimension_error : exception :=
  Exc "RuntimeError" "Trying to create tensor with negative dimension".

(** The cause of each way a run can end in an exception. *)
Definition failure_cause (w : world (F := F)) (r : raised) : Prop :=
  match r with
  | SystemExit => parsed w = Raised SystemExit
  | ScriptRaise _ _ =>
      (r = not_distributed_error /\ is_distributed (penv w) = false) \/
      (exists d, r = unrecognized_dtype_error d /\
                 dtype_argument w = Some d /\ ~ In d recognised_dtypes /\
                 is_distributed (penv w) = true)
  | InterpreterError line _ =>
      r = grad_type_error line /\
      exists i p, grad_after_backward w i p = false /\
        ((line = 119%nat /\ 1 < global_size (penv w) /\
          In p (params_for_all_reduce w)) \/
         (line = 123%nat /\ 1 < group_count (penv w) /\
          In p (params_for_replicas_all_reduce w)))
  | LibraryError x =>
      (exists k, oracle w k = Some x) \/
      (x = negative_dimension_error /\
       exists b, int_argument w "batch_size" = Some b /\ b < 0)
  end.

(** The STEP lines handed to dist_print are those of the steps
    0, ..., k-1, in this order, and a Summary line has been handed to it
    only after all 100 of them, and only once. *)
Definition lines_in_order (s : state (F := F)) : Prop :=
  exists k, (k <= 100)%nat /\
    map fst (step_times (trace s)) = seq 0 k /\
    (summaries (trace s) = [] \/
     (k = 100%nat /\ exists v, summaries (trace s) = [v])).

(** The milestones of a run: the calls that mark the work of each phase.
    The device line of line 46 is reached only after the check of lines
    44-45 has passed. *)
Inductive milestone :=
| Mparse_args                  (* line 38 *)
| Minit_data_model_parallel    (* line 40 *)
| Mdevice_line                 (* line 46 *)
| Mset_default_dtype           (* lines 57, 59, 61 *)
| Mmoe_layer                   (* lines 70-76, in ExampleModel() of line 89 *)
| Mforward                     (* line 112 *)
| Mbackward                    (* line 116 *)
| Moptimizer_step              (* line 125 *)
| Mstep_line (i : nat)         (* line 129 *)
| Msummary_line.               (* line 135 *)

Definition milestone_of (e : event (F := F)) : list milestone :=
  match e with
  | Eparse_args _ => [Mparse_args]
  | Einit_data_model_parallel => [Minit_data_model_parallel]
  | Eprint (MDevice _ _ _) => [Mdevice_line]
  | Eset_default_dtype _ => [Mset_default_dtype]
  | Emoe_layer _ _ _ _ _ _ => [Mmoe_layer]
  | Eforward => [Mforward]
  | Ebackward => [Mbackward]
  | Eoptimizer_step => [Moptimizer_step]
  | Edist_print (MStep i _ _) => [Mstep_line i]
  | Edist_print (MSummary _) => [Msummary_line]
  | _ => []
  end.

Definition milestones (t : list (event (F := F))) : list milestone :=
  flat_map milestone_of t.

(** The milestones of the four phases, in the order the script is written:
    a training step is a forward pass, a backward pass, an optimizer step
    and its STEP line, and there are 100 of them. *)
Definition step_milestones (i : nat) : list milestone :=
  [Mforward; Mbackward; Moptimizer_step; Mstep_line i].

Definition parsing_phase : list milestone := [Mparse_args].

Definition initialisation_phase : list milestone :=
  [Minit_data_model_parallel; Mdevice_line].

Definition training_phase : list milestone :=
  [Mset_default_dtype; Mmoe_layer] ++
  flat_map step_milestones (seq 0 (Z.to_nat num_steps)).

Definition summary_phase : list milestone := [Msummary_line].

Definition schedule : list milestone :=
  parsing_phase ++ initialisation_phase ++ training_phase ++ summary_phase.

(** The run has gone through the schedule from its start, up to some
    point. *)
Definition scheduled (s : state (F := F)) : Prop :=
  exists rest, schedule = milestones (trace s) ++ rest.

End Vocabulary.

(** * Sample worlds

    Worlds over the rationals on which the definitions can be run.  The
    clock of the sample worlds reads n * n at the n-th library call. *)

Fixpoint digits_value (acc : Z) (s : string) : option Z :=
  match s with
  | EmptyString => Some acc
  | String c s' =>
      if argparse.is_digit c
      then digits_value (10 * acc + Z.of_nat (nat_of_ascii c - 48)) s'
      else None
  end.

(** [int(s)] on plain decimal numerals. *)
Definition decimal (s : string) : option Z :=
  match s with
  | EmptyString => None
  | String "-" EmptyString => None
  | String "-" s' => Z.opp <$> digits_value 0 s'
  | _ => digits_value 0 s
  end.

Definition sample_env (distributed : bool) : parallel_env :=
  {| global_rank := 1; global_size := 2; data_rank := 0; model_rank := 1;
     group_count := 2; is_distributed := distributed;
     local_device_index := 1 |}.

Definition sample_world (args : list string) (distributed : bool)
    (o : nat -> option exception) : world (F := Q) :=
  {| argv := args;
     py_int := decimal;
     py_float := fun s => inject_Z <$> decimal s;
     oracle := o;
     penv := sample_env distributed;
     local_experts_numel := [8388608; 4096; 8388608; 2048];
     gate_numel := [8192];
     parameters :=
       [ {| has_skip_allreduce := false; requires_grad := true;
            grad_is_not_None := false |};
         {| has_skip_allreduce := true; requires_grad := true;
            grad_is_not_None := false |};
         {| has_skip_allreduce := true; requires_grad := true;
            grad_is_not_None := false |} ];
     grad_after_backward := fun _ _ => true;
     raw_random := fun seed k => seed * 1103515245 + k * 12345;
     clock := fun n => inject_Z (Z.of_nat n * Z.of_nat n);
     loss_value := fun i => 1 # Pos.of_nat (S i) |}.

Definition quiet : nat -> option exception := fun _ => None.

(** A distributed launch with [--dtype float16 --batch_size 3]. *)
Definition w_valid : world (F := Q) :=
  sample_world ["--dtype"; "float16"; "--batch_size"; "3"] true quiet.

(** The same command line in a session that is not distributed. *)
Definition w_single : world (F := Q) :=
  sample_world ["--dtype"; "float16"; "--batch_size"; "3"] false quiet.

(** Not distributed, and a dtype the script does not know. *)
Definition w_both : world (F := Q) :=
  sample_world ["--dtype=int8"] false quiet.

(** [loss.backward()] of the first step, the 31st library call, raises. *)
Definition out_of_memory : exception :=
  Exc "RuntimeError" "CUDA out of memory".

Definition w_failing : world (F := Q) :=
  sample_world ["--dtype"; "float16"; "--batch_size"; "3"] true
    (fun n => if (n =? 30)%nat then Some out_of_memory else None).

(** The namespace of a sample world whose command line parses. *)
Definition namespace_of (w : world (F := Q)) : gmap string (value Q) :=
  match parsed w with
  | Normal ns => ns
  | Raised _ => ∅
  end.

(** A command line that gives [--local_rank] and [--group_count]. *)
Definition w_ranked : world (F := Q) :=
  sample_world ["--local_rank"; "7"; "--group_count"; "4"] true quiet.

(** A batch size that is not a number. *)
Definition w_badargs : world (F := Q) :=
  sample_world ["--batch_size"; "many"] true quiet.

(** A distributed launch with a dtype the script does not know. *)
Definition w_int8 : world (F := Q) :=
  sample_world ["--dtype=int8"] true quiet.

(** [w_valid], but the backward pass leaves no gradient on parameter 1. *)
Definition w_no_grad : world (F := Q) :=
  {| argv := argv w_valid; py_int := py_int w_valid;
     py_float := py_float w_valid; oracle := oracle w_valid;
     penv := penv w_valid;
     local_experts_numel := local_experts_numel w_valid;
     gate_numel := gate_numel w_valid; parameters := parameters w_valid;
     grad_after_backward := fun _ p => negb (p =? 1)%nat;
     raw_random := raw_random w_valid; clock := clock w_valid;
     loss_value := loss_value w_valid |}.

(** [w_valid] on a single device: one process, one group. *)
Definition w_alone : world (F := Q) :=
  {| argv := argv w_valid; py_int := py_int w_valid;
     py_float := py_float w_valid; oracle := oracle w_valid;
     penv := {| global_rank := 0; global_size := 1; data_rank := 0;
                model_rank := 0; group_count := 1; is_distributed := true;
                local_device_index := 0 |};
     local_experts_numel := local_experts_numel w_valid;
     gate_numel := gate_numel w_valid; parameters := parameters w_valid;
     grad_after_backward := grad_after_backward w_valid;
     raw_random := raw_random w_valid; clock := clock w_valid;
     loss_value := loss_value w_valid |}.

(** Two of the options of the parser, as [add_argument] builds them. *)
Definition num_tokens_option : argparse.argument Q :=
  argparse.Argument ["--num_tokens"] "num_tokens"
    (argparse.store argparse.type_int) (Some (VInt 1024)).

Definition batch_size_option : argparse.argument Q :=
  argparse.Argument ["--batch_size"] "batch_size"
    (argparse.store argparse.type_int) (Some (VInt 16)).

(** * Reasoning about script statements *)

Section Reasoning.
Context {F : Type} `{Float F}.
Variable w : world (F := F).
Import argparse.

Lemma wp_bind {A B} (m : M A) (k : A -> M B) Q E (s : state (F := F)) :
  wp m (fun a s' => wp (k a) Q E s') E s -> wp (bind m k) Q E s.
Proof.
  unfold wp, bind. destruct (m s) as [[a|r] s']; auto.
Qed.

Lemma wp_ret {A} (a : A) (Q : A -> state -> Prop) E (s : state (F := F)) :
  Q a s -> wp (ret a) Q E s.
Proof. auto. Qed.

Lemma wp_raise {A} r (Q : A -> state -> Prop) E (s : state (F := F)) :
  E r s -> wp (raise r) Q E s.
Proof. auto. Qed.

Lemma wp_call_ret {A} e (r : nat -> A) (Q : A -> state -> Prop) E s :
  (forall x, oracle w (ncalls s) = Some x ->
             E (LibraryError x) (called e s)) ->
  (oracle w (ncalls s) = None -> Q (r (ncalls s)) (called e s)) ->
  wp (call_ret w e r) Q E s.
Proof.
  unfold wp, call_ret. destruct (oracle w (ncalls s)); auto.
Qed.

Lemma wp_call e (Q : unit -> state -> Prop) E s :
  (forall x, oracle w (ncalls s) = Some x ->
             E (LibraryError x) (called e s)) ->
  (oracle w (ncalls s) = None -> Q tt (called e s)) ->
  wp (call w e) Q E s.
Proof. intros HE HQ. exact (wp_call_ret e (fun _ => tt) Q E s HE HQ). Qed.

Lemma wp_mono {A} (m : M A) (Q Q' : A -> state -> Prop)
    (E E' : raised -> state -> Prop) (s : state (F := F)) :
  wp m Q E s ->
  (forall a s', Q a s' -> Q' a s') ->
  (forall r s', E r s' -> E' r s') ->
  wp m Q' E' s.
Proof.
  unfold wp. destruct (m s) as [[a|r] s']; auto.
Qed.

(** The loop rule: [Inv done acc] holds after the elements [done]. *)
Lemma wp_for_each {A X} (body : A -> X -> M A)
    (Inv : list X -> A -> state -> Prop) E :
  forall (todo done : list X) acc (s : state (F := F)),
  Inv done acc s ->
  (forall l1 x l2 acc s, done ++ todo = l1 ++ x :: l2 ->
     Inv l1 acc s ->
     wp (body acc x) (fun acc' s' => Inv (l1 ++ [x]) acc' s') E s) ->
  wp (for_each todo body acc) (fun acc' s' => Inv (done ++ todo) acc' s') E s.
Proof.
  induction todo as [|x todo IH]; intros done acc s HI Hbody; simpl.
  - rewrite app_nil_r. exact HI.
  - apply wp_bind.
    eapply wp_mono; [apply (Hbody done x todo); [reflexivity | exact HI] | | auto].
    intros acc' s' HI'. cbv beta.
    replace (done ++ x :: todo) with ((done ++ [x]) ++ todo)
      by (rewrite <- app_assoc; reflexivity).
    apply IH; [exact HI'|].
    intros l1 y l2 acc0 s0 Heq. apply (Hbody l1 y l2).
    rewrite <- Heq, <- app_assoc. reflexivity.
Qed.

(** The loop rule for an invariant of the state alone. *)
Lemma wp_for_each_inv {A X} (body : A -> X -> M A) (I : state -> Prop) E :
  forall (l : list X) acc (s : state (F := F)),
  I s ->
  (forall acc x s, In x l -> I s -> wp (body acc x) (fun _ s' => I s') E s) ->
  wp (for_each l body acc) (fun _ s' => I s') E s.
Proof.
  induction l as [|x l IH]; intros acc s HI Hbody; simpl.
  - exact HI.
  - apply wp_bind.
    eapply wp_mono; [apply (Hbody acc x s); [left; reflexivity | exact HI] | | auto].
    intros acc' s' HI'. cbv beta. apply IH; [exact HI'|].
    intros acc0 y s0 Hy. apply Hbody. right. exact Hy.
Qed.

Lemma wp_set_default_dtype d (Q : unit -> state -> Prop) E (s : state (F := F)) :
  Q tt (with_default_dtype d s) -> wp (set_default_dtype d) Q E s.
Proof. auto. Qed.

Lemma wp_get_default_dtype (Q : dtype -> state -> Prop) E (s : state (F := F)) :
  Q (default_dtype s) s -> wp get_default_dtype Q E s.
Proof. auto. Qed.

Lemma wp_select_dtype d (Q : unit -> state -> Prop) E (s : state (F := F)) :
  (forall dt, torch_dtype d = Some dt -> Q tt (with_default_dtype dt s)) ->
  (torch_dtype d = None -> E (unrecognized_dtype_error d) s) ->
  wp (select_dtype d) Q E s.
Proof.
  unfold select_dtype, torch_dtype. intros HQ HE.
  destruct (String.eqb d "float32"); [apply HQ; reflexivity|].
  destruct (String.eqb d "float16"); [apply HQ; reflexivity|].
  destruct (String.eqb d "bfloat16"); [apply HQ; reflexivity|].
  apply HE. reflexivity.
Qed.

Lemma recognised_torch_dtype d :
  In d recognised_dtypes <-> torch_dtype d <> None.
Proof.
  unfold recognised_dtypes, torch_dtype. split.
  - intros [<-|[<-|[<-|[]]]]; discriminate.
  - destruct (String.eqb_spec d "float32") as [->|]; [simpl; auto|].
    destruct (String.eqb_spec d "float16") as [->|]; [simpl; auto|].
    destruct (String.eqb_spec d "bfloat16") as [->|]; [simpl; auto|].
    congruence.
Qed.

Lemma wp_get_int line (ns : gmap string (value F)) name (Q : Z -> state -> Prop) E s z :
  ns !! name = Some (VInt z) -> Q z s -> wp (get_int line ns name) Q E s.
Proof. unfold wp, get_int. intros ->. auto. Qed.

Lemma wp_get_str line (ns : gmap string (value F)) name (Q : string -> state -> Prop) E s z :
  ns !! name = Some (VStr z) -> Q z s -> wp (get_str line ns name) Q E s.
Proof. unfold wp, get_str. intros ->. auto. Qed.

Lemma wp_get_bool line (ns : gmap string (value F)) name (Q : bool -> state -> Prop) E s z :
  ns !! name = Some (VBool z) -> Q z s -> wp (get_bool line ns name) Q E s.
Proof. unfold wp, get_bool. intros ->. auto. Qed.

Lemma wp_get_float line (ns : gmap string (value F)) name (Q : F -> state -> Prop) E s z :
  ns !! name = Some (VFloat z) -> Q z s -> wp (get_float line ns name) Q E s.
Proof. unfold wp, get_float. intros ->. auto. Qed.

(** ** The namespace [parse_args] returns *)

Lemma find_exact_In (p : list (argument F)) s a :
  find_exact p s = Some a -> In a p.
Proof.
  unfold find_exact, option_table.
  destruct (find _ _) as [[s' a']|] eqn:Hf; [|discriminate].
  simpl. intros [= <-]. apply find_some in Hf as [Hin _].
  apply in_flat_map in Hin as (b & Hb & Hin).
  apply in_map_iff in Hin as (? & [= _ <-] & _). exact Hb.
Qed.

Lemma option_tuples_In (p : list (argument F)) tok a e :
  In (a, e) (option_tuples p tok) -> In a p.
Proof.
  assert (Htab : forall sa, In sa (option_table p) -> In (snd sa) p).
  { intros [s' a'] Hin. apply in_flat_map in Hin as (b & Hb & Hin).
    apply in_map_iff in Hin as (? & [= _ <-] & _). exact Hb. }
  unfold option_tuples.
  destruct (String.prefix "--" tok).
  - destruct (split_eq tok) as [name explicit].
    intros Hin. apply in_flat_map in Hin as (sa & Hsa & Hin).
    destruct (String.prefix name (fst sa)); [|contradiction].
    destruct Hin as [[= <- _]|[]]. auto.
  - intros Hin. apply in_flat_map in Hin as (sa & Hsa & Hin).
    destruct (String.eqb (fst sa) (take2 tok)).
    + destruct Hin as [[= <- _]|[]]. auto.
    + destruct (String.prefix tok (fst sa)); [|contradiction].
      destruct Hin as [[= <- _]|[]]. auto.
Qed.

Lemma classify_In (p : list (argument F)) tok a e :
  classify p tok = Optional a e -> In a p.
Proof.
  unfold classify. destruct tok as [|c tok']; [discriminate|].
  destruct (negb _); [discriminate|].
  destruct (find_exact p (String c tok')) as [a'|] eqn:Hx.
  { intros [= <- _]. eapply find_exact_In; eauto. }
  destruct (_ =? 1)%nat; [discriminate|].
  destruct (split_eq (String c tok')) as [name [v|]].
  - destruct (find_exact p name) as [a'|] eqn:Hn.
    { intros [= <- _]. eapply find_exact_In; eauto. }
    destruct (option_tuples p (String c tok')) as [|[a1 e1] [|? ?]] eqn:Ht;
      try discriminate.
    + destruct (negative_number_like _); [discriminate|].
      destruct (has_space _); discriminate.
    + intros [= <- <-]. eapply option_tuples_In. rewrite Ht. left. reflexivity.
  - destruct (option_tuples p (String c tok')) as [|[a1 e1] [|? ?]] eqn:Ht;
      try discriminate.
    + destruct (negative_number_like _); [discriminate|].
      destruct (has_space _); discriminate.
    + intros [= <- <-]. eapply option_tuples_In. rewrite Ht. left. reflexivity.
Qed.

Lemma convert_type_ok pi pf ty s (v : value F) :
  convert pi pf ty s = Some v -> type_ok (store ty) v = true.
Proof.
  destruct ty; simpl.
  - destruct (pi s); simpl; intros [= <-]; reflexivity.
  - intros [= <-]. reflexivity.
  - destruct (pf s); simpl; intros [= <-]; reflexivity.
Qed.

Lemma parser_dest_action (a b : argument F) :
  In a parser -> In b parser -> dest a = dest b -> action a = action b.
Proof.
  unfold parser, add_argument, ArgumentParser. simpl.
  intros Ha Hb.
  repeat (destruct Ha as [<-|Ha]; [|]); try contradiction;
  repeat (destruct Hb as [<-|Hb]; [|]); try contradiction;
  simpl; intros Hd; try reflexivity; discriminate Hd.
Qed.

Lemma typed_insert ns a v :
  In a parser -> type_ok (action a) v = true -> typed ns ->
  typed (<[dest a := v]> ns).
Proof.
  intros Ha Hv Hns b d Hb Hd.
  destruct (decide (dest a = dest b)) as [Heq|Hne].
  - exists v. rewrite Heq, lookup_insert_eq. split; [reflexivity|].
    rewrite <- (parser_dest_action a b Ha Hb Heq). exact Hv.
  - rewrite lookup_insert_ne by exact Hne. eauto.
Qed.

Lemma consume_typed pi pf : forall n toks ns ns',
  (List.length toks <= n)%nat -> typed ns ->
  consume pi pf parser toks ns = Normal ns' -> typed ns'.
Proof.
  induction n as [|n IH]; intros toks ns ns' Hlen Hns.
  - destruct toks; [|simpl in Hlen; lia]. simpl. intros [= <-]. exact Hns.
  - destruct toks as [|tok rest]; simpl.
    { intros [= <-]. exact Hns. }
    simpl in Hlen.
    destruct (classify parser tok) as [|a explicit| |] eqn:Hc; try discriminate.
    pose proof (classify_In _ _ _ _ Hc) as Ha.
    destruct (action a) eqn:Hact; try discriminate.
    + destruct explicit as [x|].
      * destruct (convert pi pf ty x) as [v|] eqn:Hv; [|discriminate].
        apply IH; [lia|]. apply typed_insert; auto.
        rewrite Hact. eapply convert_type_ok; eauto.
      * destruct rest as [|x rest']; [discriminate|].
        destruct (classify parser x); try discriminate.
        destruct (convert pi pf ty x) as [v|] eqn:Hv; [|discriminate].
        apply IH; [simpl in Hlen; lia|]. apply typed_insert; auto.
        rewrite Hact. eapply convert_type_ok; eauto.
    + destruct explicit; [discriminate|].
      apply IH; [lia|]. apply typed_insert; auto. rewrite Hact. reflexivity.
Qed.

Lemma defaults_typed : typed (defaults parser).
Proof.
  intros a d Ha. unfold parser, add_argument, ArgumentParser in Ha. simpl in Ha.
  repeat (destruct Ha as [<-|Ha]; [|]); try contradiction; simpl;
    try discriminate; intros _; eexists; (split; [vm_compute; reflexivity|reflexivity]).
Qed.

Lemma parse_args_typed pi pf argv ns :
  parse_args pi pf parser argv = Normal ns -> typed ns.
Proof.
  unfold parse_args. apply (consume_typed pi pf (List.length argv)); [lia|].
  apply defaults_typed.
Qed.

Lemma consume_raises pi pf : forall n toks (ns : gmap string (value F)) r,
  (List.length toks <= n)%nat ->
  consume pi pf parser toks ns = Raised r -> r = SystemExit.
Proof.
  induction n as [|n IH]; intros toks ns r Hlen.
  - destruct toks; [|simpl in Hlen; lia]. discriminate.
  - destruct toks as [|tok rest]; simpl; [discriminate|].
    simpl in Hlen.
    destruct (classify parser tok) as [|a explicit| |]; try congruence.
    destruct (action a); try congruence.
    + destruct explicit as [x|].
      * destruct (convert pi pf ty x); [|congruence]. apply IH. lia.
      * destruct rest as [|x rest']; [congruence|].
        destruct (classify parser x); try congruence.
        destruct (convert pi pf ty x); [|congruence].
        apply IH. simpl in Hlen. lia.
    + destruct explicit; [congruence|]. apply IH. lia.
Qed.

Lemma wp_parse (Q : gmap string (value F) -> state -> Prop) E s :
  (forall ns, parsed w = Normal ns -> typed ns ->
              Q ns (record (Eparse_args (argv w)) s)) ->
  (parsed w = Raised SystemExit ->
   E SystemExit (record (Eparse_args (argv w)) s)) ->
  wp (parse w) Q E s.
Proof.
  unfold wp, parse, parsed. intros HQ HE.
  destruct (parse_args _ _ _ _) as [ns|r] eqn:Hp.
  - apply HQ; [reflexivity|]. eapply parse_args_typed; eauto.
  - assert (r = SystemExit) as ->.
    { eapply (consume_raises _ _ (List.length (argv w))); [|exact Hp]. lia. }
    apply HE. reflexivity.
Qed.

Lemma typed_lookup (ns : gmap string (value F)) name a d :
  find (fun a => String.eqb (dest a) name) parser = Some a ->
  default a = Some d -> typed ns ->
  exists v, ns !! name = Some v /\ type_ok (action a) v = true.
Proof.
  intros Hf Hd Hns. apply find_some in Hf as [Hin Heq].
  apply String.eqb_eq in Heq. subst name. eapply Hns; eauto.
Qed.

Lemma typed_int (ns : gmap string (value F)) name a d :
  find (fun a => String.eqb (dest a) name) parser = Some a ->
  default a = Some d -> action a = store type_int -> typed ns ->
  exists z, ns !! name = Some (VInt z).
Proof.
  intros Hf Hd Ha Hns. destruct (typed_lookup ns name a d Hf Hd Hns) as (v & Hv & Hok).
  rewrite Ha in Hok. destruct v; try discriminate. eauto.
Qed.

Lemma typed_str (ns : gmap string (value F)) name a d :
  find (fun a => String.eqb (dest a) name) parser = Some a ->
  default a = Some d -> action a = store type_str -> typed ns ->
  exists z, ns !! name = Some (VStr z).
Proof.
  intros Hf Hd Ha Hns. destruct (typed_lookup ns name a d Hf Hd Hns) as (v & Hv & Hok).
  rewrite Ha in Hok. destruct v; try discriminate. eauto.
Qed.

Lemma typed_float (ns : gmap string (value F)) name a d :
  find (fun a => String.eqb (dest a) name) parser = Some a ->
  default a = Some d -> action a = store type_float -> typed ns ->
  exists z, ns !! name = Some (VFloat z).
Proof.
  intros Hf Hd Ha Hns. destruct (typed_lookup ns name a d Hf Hd Hns) as (v & Hv & Hok).
  rewrite Ha in Hok. destruct v; try discriminate. eauto.
Qed.

Lemma typed_bool (ns : gmap string (value F)) name a d :
  find (fun a => String.eqb (dest a) name) parser = Some a ->
  default a = Some d -> action a = store_true -> typed ns ->
  exists z, ns !! name = Some (VBool z).
Proof.
  intros Hf Hd Ha Hns. destruct (typed_lookup ns name a d Hf Hd Hns) as (v & Hv & Hok).
  rewrite Ha in Hok. destruct v; try discriminate. eauto.
Qed.

(** Line 42 keeps the namespace well typed. *)
Lemma typed_local_rank (ns : gmap string (value F)) z :
  typed ns -> typed (<["local_rank" := VInt z]> ns).
Proof.
  intros Hns.
  apply (typed_insert ns (Argument ["--local_rank"] "local_rank"
                            (store type_int) (Some (VInt (-1)))) (VInt z));
    [|reflexivity|exact Hns].
  unfold parser, add_argument, ArgumentParser. simpl. auto.
Qed.

(** ** Invariants of the trace *)

Lemma trace_inv_called P e (s : state (F := F)) :
  trace_inv P s -> P e -> trace_inv P (called e s).
Proof.
  unfold trace_inv. simpl. intros Hs He. apply Forall_app. split; auto.
Qed.

Lemma trace_inv_record P e (s : state (F := F)) :
  trace_inv P s -> P e -> trace_inv P (record e s).
Proof.
  unfold trace_inv. simpl. intros Hs He. apply Forall_app. split; auto.
Qed.

Lemma trace_inv_dtype P d (s : state (F := F)) :
  trace_inv P s -> P (Eset_default_dtype d) ->
  trace_inv P (with_default_dtype d s).
Proof.
  unfold trace_inv. simpl. intros Hs He. apply Forall_app. split; auto.
Qed.

Lemma mod_1_draws (f : nat -> Z) n :
  map (fun k => f k mod 1) (seq 0 n) = repeat 0 n.
Proof.
  generalize 0%nat. induction n as [|n IH]; intros k; simpl; [reflexivity|].
  rewrite Z.mod_1_r, IH. reflexivity.
Qed.

Lemma select_const (keep : parameter -> bool) (b : bool) ps :
  (forall p, In p ps -> keep p = b) ->
  forall k,
  map fst (List.filter (fun ip => keep (snd ip))
             (combine (seq k (List.length ps)) ps)) =
  if b then seq k (List.length ps) else [].
Proof.
  induction ps as [|p ps IH]; intros Hall k.
  - destruct b; reflexivity.
  - specialize (IH (fun q Hq => Hall q (or_intror Hq)) (S k)).
    pose proof (Hall p (or_introl eq_refl)) as Hp.
    cbn [List.length seq combine List.filter snd]. rewrite Hp.
    destruct b; cbn [map fst]; rewrite IH; reflexivity.
Qed.

(** ** Failures of library calls *)

Lemma no_failure_called (e : event) (s : state (F := F)) :
  no_failure w s -> oracle w (ncalls s) = None -> no_failure w (called e s).
Proof.
  unfold no_failure. simpl. intros Hs Hok j Hj.
  destruct (Nat.eq_dec j (ncalls s)) as [->|]; [exact Hok|]. apply Hs. lia.
Qed.

Lemma no_failure_raised (e : event) (s : state (F := F)) x :
  no_failure w s -> oracle w (ncalls s) = Some x ->
  propagated w (LibraryError x) (called e s).
Proof.
  unfold no_failure, propagated. simpl. intros Hs Hx k y Hk Hy.
  destruct (Nat.eq_dec k (ncalls s)) as [->|].
  - split; [congruence | reflexivity].
  - rewrite Hs in Hy by lia. discriminate.
Qed.

Lemma no_failure_propagated r (s : state (F := F)) :
  no_failure w s -> propagated w r s.
Proof.
  unfold no_failure, propagated. intros Hs k y Hk Hy.
  rewrite Hs in Hy by exact Hk. discriminate.
Qed.

(** ** Phases *)

Lemma in_order_snoc (e : event (F := F)) : forall t c,
  in_order c (t ++ [e]) =
  in_order c t && ((last_phase c t <=? phase e)%nat
                   && (phase e <=? S (last_phase c t))%nat).
Proof.
  induction t as [|e' t IH]; intros c; simpl.
  - rewrite andb_true_r. reflexivity.
  - rewrite IH, !andb_assoc. reflexivity.
Qed.

Lemma last_phase_snoc (e : event (F := F)) : forall t c,
  last_phase c (t ++ [e]) = phase e.
Proof. induction t as [|e' t IH]; intros c; simpl; auto. Qed.

Lemma phased_snoc k e (s s' : state (F := F)) :
  trace s' = trace s ++ [e] ->
  phased k s ->
  (k <=? phase e)%nat && (phase e <=? S k)%nat = true ->
  phased (phase e) s'.
Proof.
  unfold phased. intros -> [Ho Hl] He.
  rewrite in_order_snoc, last_phase_snoc, Ho, Hl, He. auto.
Qed.

(** ** Lines printed and iterations *)

Lemma progress_snoc times n e (s s' : state (F := F)) :
  trace s' = trace s ++ [e] ->
  progress times n s ->
  summary_line e = [] ->
  progress (times ++ step_line e) (n + Nat.b2n (is_optimizer_step e)) s'.
Proof.
  unfold progress, step_times, summaries, iterations.
  intros -> (Ht & Hn & Hs) He.
  rewrite !flat_map_app, List.filter_app, List.length_app, Ht, Hn, Hs.
  simpl. rewrite He, !app_nil_r.
  destruct (is_optimizer_step e); auto.
Qed.

Lemma accumulate_snoc times i (t : F) :
  accumulate (times ++ [(i, t)]) =
  if late i then fadd (accumulate times) t else accumulate times.
Proof.
  unfold accumulate. rewrite List.filter_app. simpl.
  destruct (late i); simpl.
  - rewrite map_app, fold_left_app. reflexivity.
  - rewrite app_nil_r. reflexivity.
Qed.

(** ** Milestones *)

Lemma milestones_snoc l e (s s' : state (F := F)) :
  trace s' = trace s ++ [e] ->
  milestones (trace s) = l ->
  milestones (trace s') = l ++ milestone_of e.
Proof.
  unfold milestones. intros -> <-.
  rewrite flat_map_app. simpl. rewrite app_nil_r. reflexivity.
Qed.

Lemma schedule_unfold :
  schedule =
  [Mparse_args; Minit_data_model_parallel; Mdevice_line;
   Mset_default_dtype; Mmoe_layer] ++
  flat_map step_milestones (seq 0 100) ++ [Msummary_line].
Proof. reflexivity. Qed.

Lemma wp_run Q E :
  wp (script w) Q E initial ->
  match run w with
  | (Normal a, s') => Q a s'
  | (Raised r, s') => E r s'
  end.
Proof. auto. Qed.

End Reasoning.

(** One step of symbolic execution. *)
Ltac wp_step :=
  lazymatch goal with
  | |- wp (bind _ _) _ _ _ => apply wp_bind
  | |- wp (ret _) _ _ _ => apply wp_ret
  | |- wp (raise _) _ _ _ => apply wp_raise
  | |- wp (call _ _) _ _ _ => apply wp_call; [intros ?x ?Hx | intros ?Hok]
  | |- wp (call_ret _ _ _) _ _ _ => apply wp_call_ret; [intros ?x ?Hx | intros ?Hok]
  | |- wp (parse _) _ _ _ => apply wp_parse; [intros ?ns ?Hparsed ?Htyped | intros ?Hparsed]
  | Ht : typed ?ns |- wp (get_int _ ?ns ?name) _ _ _ =>
      let z := fresh "z" in let Hz := fresh "Hattr" in
      destruct (typed_int ns name _ _ eq_refl eq_refl eq_refl Ht) as [z Hz];
      apply (wp_get_int _ _ _ _ _ _ z Hz)
  | Ht : typed ?ns |- wp (get_str _ ?ns ?name) _ _ _ =>
      let z := fresh "z" in let Hz := fresh "Hattr" in
      destruct (typed_str ns name _ _ eq_refl eq_refl eq_refl Ht) as [z Hz];
      apply (wp_get_str _ _ _ _ _ _ z Hz)
  | Ht : typed ?ns |- wp (get_bool _ ?ns ?name) _ _ _ =>
      let z := fresh "z" in let Hz := fresh "Hattr" in
      destruct (typed_bool ns name _ _ eq_refl eq_refl eq_refl Ht) as [z Hz];
      apply (wp_get_bool _ _ _ _ _ _ z Hz)
  | Ht : typed ?ns |- wp (get_float _ ?ns ?name) _ _ _ =>
      let z := fresh "z" in let Hz := fresh "Hattr" in
      destruct (typed_float ns name _ _ eq_refl eq_refl eq_refl Ht) as [z Hz];
      apply (wp_get_float _ _ _ _ _ _ z Hz)
  | |- wp (if ?c then _ else _) _ _ _ => destruct c eqn:?
  | |- wp get_default_dtype _ _ _ => apply wp_get_default_dtype
  | |- wp (set_default_dtype _) _ _ _ => apply wp_set_default_dtype
  end; cbv beta.

(** A step of symbolic execution that carries an invariant of the trace
    along; [solveP] proves that the event of a call satisfies it. *)
Ltac tr_step solveP :=
  lazymatch goal with
  | HI : trace_inv ?P ?s |- wp (call _ ?e) _ _ ?s =>
      let HI' := fresh "HI" in
      assert (HI' : trace_inv P (called e s))
        by (apply trace_inv_called; [exact HI | solveP]);
      clear HI; apply wp_call; [intros ? _; exact HI' | intros _]; cbv beta
  | HI : trace_inv ?P ?s |- wp (call_ret _ ?e _) _ _ ?s =>
      let HI' := fresh "HI" in
      assert (HI' : trace_inv P (called e s))
        by (apply trace_inv_called; [exact HI | solveP]);
      clear HI; apply wp_call_ret; [intros ? _; exact HI' | intros _]; cbv beta
  | HI : trace_inv ?P ?s |- wp (parse ?w) _ _ ?s =>
      let HI' := fresh "HI" in
      assert (HI' : trace_inv P (record (Eparse_args (argv w)) s))
        by (apply trace_inv_record; [exact HI | solveP]);
      clear HI; apply wp_parse;
      [intros ?ns ?Hparsed ?Htyped | intros _; exact HI']; cbv beta
  | HI : trace_inv ?P ?s |- wp (select_dtype ?d) _ _ ?s =>
      let dt := fresh "dt" in
      let HI' := fresh "HI" in
      apply wp_select_dtype;
      [intros dt _;
       assert (HI' : trace_inv P (with_default_dtype dt s))
         by (apply trace_inv_dtype; [exact HI | solveP]);
       clear HI
      | intros _; exact HI]; cbv beta
  | HI : trace_inv ?P ?s |- wp (raise _) _ _ ?s => apply wp_raise; exact HI
  | _ => wp_step
  end.

(** A step of symbolic execution that carries [no_failure] along. *)
Ltac nf_step :=
  lazymatch goal with
  | HI : no_failure ?w ?s |- wp (call _ ?e) _ _ ?s =>
      apply wp_call;
      [let x' := fresh in let Hx' := fresh in
       intros x' Hx'; exact (no_failure_raised w e s _ HI Hx')
      | let Hok := fresh "Hok" in
        intros Hok; apply (no_failure_called w e s HI) in Hok; clear HI];
      cbv beta
  | HI : no_failure ?w ?s |- wp (call_ret _ ?e _) _ _ ?s =>
      apply wp_call_ret;
      [let x' := fresh in let Hx' := fresh in
       intros x' Hx'; exact (no_failure_raised w e s _ HI Hx')
      | let Hok := fresh "Hok" in
        intros Hok; apply (no_failure_called w e s HI) in Hok; clear HI];
      cbv beta
  | HI : no_failure ?w ?s |- wp (parse ?w) _ _ ?s =>
      apply wp_parse;
      [intros ?ns ?Hparsed ?Htyped
      | intros _; exact (no_failure_propagated w _ _ HI)];
      change (no_failure w (record (Eparse_args (argv w)) s)) in HI; cbv beta
  | HI : no_failure ?w ?s |- wp (select_dtype ?d) _ _ ?s =>
      let dt := fresh "dt" in
      apply wp_select_dtype;
      [intros dt _; change (no_failure w (with_default_dtype dt s)) in HI
      | intros _; exact (no_failure_propagated w _ _ HI)]; cbv beta
  | HI : no_failure ?w ?s |- wp (raise _) _ _ ?s =>
      apply wp_raise; exact (no_failure_propagated w _ _ HI)
  | _ => wp_step
  end.

(** A step of symbolic execution that carries the phase reached along. *)
Ltac ph_step :=
  lazymatch goal with
  | HI : phased ?k ?s |- wp (call _ ?e) _ _ ?s =>
      let HI' := fresh "HI" in
      assert (HI' : phased (phase e) (called e s))
        by (apply (phased_snoc k e s); [reflexivity | exact HI | reflexivity]);
      cbn [phase] in HI';
      clear HI; apply wp_call; [intros ? _; exact (proj1 HI') | intros _]; cbv beta
  | HI : phased ?k ?s |- wp (call_ret _ ?e _) _ _ ?s =>
      let HI' := fresh "HI" in
      assert (HI' : phased (phase e) (called e s))
        by (apply (phased_snoc k e s); [reflexivity | exact HI | reflexivity]);
      cbn [phase] in HI';
      clear HI; apply wp_call_ret; [intros ? _; exact (proj1 HI') | intros _]; cbv beta
  | HI : phased ?k ?s |- wp (parse ?w) _ _ ?s =>
      let HI' := fresh "HI" in
      assert (HI' : phased 1 (record (Eparse_args (argv w)) s))
        by (apply (phased_snoc k (Eparse_args (argv w)) s);
            [reflexivity | exact HI | reflexivity]);
      clear HI; apply wp_parse;
      [intros ?ns ?Hparsed ?Htyped | intros _; exact (proj1 HI')]; cbv beta
  | HI : phased ?k ?s |- wp (select_dtype ?d) _ _ ?s =>
      let dt := fresh "dt" in
      let HI' := fresh "HI" in
      apply wp_select_dtype;
      [intros dt _;
       assert (HI' : phased 3 (with_default_dtype dt s))
         by (apply (phased_snoc k (Eset_default_dtype dt) s);
             [reflexivity | exact HI | reflexivity]);
       clear HI
      | intros _; exact (proj1 HI)]; cbv beta
  | HI : phased ?k ?s |- wp (raise _) _ _ ?s => apply wp_raise; exact (proj1 HI)
  | _ => wp_step
  end.

(** A step of symbolic execution in a world where no library call
    raises, carrying the lines printed and the iterations made along. *)
Ltac pg_quiet :=
  let x := fresh in
  let Hx := fresh in
  intros x Hx;
  match goal with
  | Hq : forall n, oracle ?w n = None |- _ => rewrite Hq in Hx; discriminate Hx
  end.

Ltac pg_step :=
  lazymatch goal with
  | HI : progress ?times ?n ?s |- wp (call _ ?e) _ _ ?s =>
      let HI' := fresh "HI" in
      pose proof (progress_snoc times n e s (called e s) eq_refl HI eq_refl)
        as HI';
      cbn [step_line is_optimizer_step Nat.b2n] in HI';
      rewrite ?app_nil_r, ?Nat.add_0_r, ?Nat.add_1_r in HI';
      clear HI; apply wp_call; [pg_quiet | intros _]; cbv beta
  | HI : progress ?times ?n ?s |- wp (call_ret _ ?e _) _ _ ?s =>
      let HI' := fresh "HI" in
      pose proof (progress_snoc times n e s (called e s) eq_refl HI eq_refl)
        as HI';
      cbn [step_line is_optimizer_step Nat.b2n] in HI';
      rewrite ?app_nil_r, ?Nat.add_0_r, ?Nat.add_1_r in HI';
      clear HI; apply wp_call_ret; [pg_quiet | intros _]; cbv beta
  | HI : progress ?times ?n ?s |- wp (parse ?w) _ _ ?s =>
      let HI' := fresh "HI" in
      pose proof (progress_snoc times n (Eparse_args (argv w)) s
                    (record (Eparse_args (argv w)) s) eq_refl HI eq_refl)
        as HI';
      cbn [step_line is_optimizer_step Nat.b2n] in HI';
      rewrite ?app_nil_r, ?Nat.add_0_r in HI';
      clear HI; apply wp_parse;
      [intros ?ns ?Hparsed ?Htyped | intros ?Hparsed]; cbv beta
  | HI : progress ?times ?n ?s |- wp (select_dtype ?d) _ _ ?s =>
      let dt := fresh "dt" in
      let HI' := fresh "HI" in
      apply wp_select_dtype;
      [intros dt _;
       pose proof (progress_snoc times n (Eset_default_dtype dt) s
                     (with_default_dtype dt s) eq_refl HI eq_refl) as HI';
       cbn [step_line is_optimizer_step Nat.b2n] in HI';
       rewrite ?app_nil_r, ?Nat.add_0_r in HI';
       clear HI
      | intros ?Hdt]; cbv beta
  | _ => wp_step
  end.

(** A step of symbolic execution that carries the milestones reached
    along; [fin] proves what is claimed of the state in which an exception
    leaves. *)
Ltac ms_step fin :=
  lazymatch goal with
  | HI : milestones (trace ?s) = ?l |- wp (call _ ?e) _ _ ?s =>
      let HI' := fresh "HI" in
      pose proof (milestones_snoc l e s (called e s) eq_refl HI) as HI';
      cbn [milestone_of] in HI'; rewrite <- ?app_assoc in HI';
      cbn [app] in HI';
      clear HI; apply wp_call; [intros ? _; fin | intros _]; cbv beta
  | HI : milestones (trace ?s) = ?l |- wp (call_ret _ ?e _) _ _ ?s =>
      let HI' := fresh "HI" in
      pose proof (milestones_snoc l e s (called e s) eq_refl HI) as HI';
      cbn [milestone_of] in HI'; rewrite <- ?app_assoc in HI';
      cbn [app] in HI';
      clear HI; apply wp_call_ret; [intros ? _; fin | intros _]; cbv beta
  | HI : milestones (trace ?s) = ?l |- wp (parse ?w) _ _ ?s =>
      let HI' := fresh "HI" in
      pose proof (milestones_snoc l (Eparse_args (argv w)) s
                    (record (Eparse_args (argv w)) s) eq_refl HI) as HI';
      cbn [milestone_of] in HI'; rewrite <- ?app_assoc in HI';
      cbn [app] in HI';
      clear HI; apply wp_parse;
      [intros ?ns ?Hparsed ?Htyped | intros _; fin]; cbv beta
  | HI : milestones (trace ?s) = ?l |- wp (select_dtype ?d) _ _ ?s =>
      let dt := fresh "dt" in
      let HI' := fresh "HI" in
      apply wp_select_dtype;
      [intros dt _;
       pose proof (milestones_snoc l (Eset_default_dtype dt) s
                     (with_default_dtype dt s) eq_refl HI) as HI';
       cbn [milestone_of] in HI'; rewrite <- ?app_assoc in HI';
       cbn [app] in HI';
       clear HI
      | intros _; fin]; cbv beta
  | HI : milestones (trace ?s) = _ |- wp (raise _) _ _ ?s =>
      apply wp_raise; fin
  | _ => wp_step
  end.

(** The milestones reached are the start of the schedule: before the
    loop, where they are a list that is written out. *)
Ltac scheduled_prefix :=
  idtac;
  lazymatch goal with
  | HI : milestones (trace ?s) = _ |- scheduled ?s =>
      unfold scheduled; rewrite HI;
      unfold schedule, parsing_phase, initialisation_phase, training_phase,
        summary_phase;
      eexists; cbn [app]; reflexivity
  end.

(** The same inside a training step, where [Hsched] says how far the
    schedule has been gone through. *)
Ltac scheduled_step Hsched :=
  idtac;
  lazymatch goal with
  | HI : milestones (trace ?s) = _ |- scheduled ?s =>
      unfold scheduled; rewrite HI; eapply Hsched; reflexivity
  end.

Section Claims.
Context {F : Type} `{Float F}.
Import argparse.

Lemma run_not_distributed (w : world (F := F)) :
  (forall n, (n < 3)%nat -> oracle w n = None) ->
  (exists ns, parsed w = Normal ns) ->
  is_distributed (penv w) = false ->
  run w = (Raised not_distributed_error,
           called Einit_data_model_parallel
             (record (Eparse_args (argv w))
                (called Elogging_basicConfig
                   (called Einit_affinity initial)))).
Proof.
  intros Hret [ns0 Hns0] Hdist.
  assert (Hwp : wp (script w) (fun _ _ => False)
            (fun r s => r = not_distributed_error /\
               s = called Einit_data_model_parallel
                     (record (Eparse_args (argv w))
                        (called Elogging_basicConfig
                           (called Einit_affinity initial))))
            initial).
  { unfold script.
    wp_step. wp_step. { simpl in Hx. rewrite Hret in Hx by lia. discriminate. }
    wp_step. wp_step. { simpl in Hx. rewrite Hret in Hx by lia. discriminate. }
    wp_step. wp_step; [|congruence].
    wp_step. wp_step. { simpl in Hx. rewrite Hret in Hx by lia. discriminate. }
    wp_step. unfold check_distributed. rewrite Hdist. simpl.
    wp_step. split; reflexivity. }
  apply wp_run in Hwp. destruct (run w) as [[[]|r] s]; [contradiction|].
  destruct Hwp as [-> ->]. reflexivity.
Qed.

(** C1.  When the session is not launched in distributed mode, the script
    raises the RuntimeError of line 45 right after
    init_data_model_parallel() has returned: nothing but the preamble, the
    argument parsing and that call has happened, so no model has been
    constructed and no training step has run. *)
Theorem not_distributed_raises (w : world (F := F)) :
  (forall n, (n < 3)%nat -> oracle w n = None) ->
  (exists ns, parsed w = Normal ns) ->
  is_distributed (penv w) = false ->
  fst (run w) = Raised not_distributed_error /\
  trace (snd (run w)) =
    [Einit_affinity; Elogging_basicConfig; Eparse_args (argv w);
     Einit_data_model_parallel] /\
  Forall (fun e => construction_or_training e = false) (trace (snd (run w))).
Proof.
  intros Hret Hns Hdist.
  rewrite (run_not_distributed w Hret Hns Hdist). simpl.
  repeat split. repeat constructor.
Qed.

Lemma reduce_raises_nothing_own (w : world (F := F)) line i ps n g s :
  wp (reduce_grads w line i ps n g) (fun _ _ => True)
     (fun r _ => ~ script_raise r) s.
Proof.
  unfold reduce_grads.
  apply (wp_for_each_inv _ (fun _ => True)); [exact I|].
  intros _ p s' _ _.
  repeat (wp_step; try solve [simpl; tauto]).
Qed.

Lemma step_raises_nothing_own (w : world (F := F)) penv args y avg i s :
  typed args ->
  wp (step w penv args y avg i) (fun _ _ => True)
     (fun r _ => ~ script_raise r) s.
Proof.
  intros Ht. unfold step.
  repeat (repeat (wp_step; try solve [simpl; tauto]);
          try (eapply wp_mono;
               [apply reduce_raises_nothing_own | intros _ ? _; cbv beta | auto])).
Qed.

(** C5.  In a distributed session and with a [--dtype] among float32,
    float16 and bfloat16, neither [raise] statement of the script is
    reached: whatever the libraries do, the script does not end in an
    exception raised by a statement of its own. *)
Theorem no_script_raise (w : world (F := F)) (d : string) :
  is_distributed (penv w) = true ->
  dtype_argument w = Some d ->
  In d recognised_dtypes ->
  forall r, fst (run w) = Raised r -> ~ script_raise r.
Proof.
  intros Hdist Hd Hrec.
  assert (Hwp : wp (script w) (fun _ _ => True)
                   (fun r _ => ~ script_raise r) initial).
  { unfold script, ExampleModel, LongTensor, random_.
    repeat (wp_step; try solve [simpl; tauto]).
    pose proof (typed_local_rank ns (local_device_index (penv w)) Htyped) as Htyped'.
    unfold check_distributed. rewrite Hdist. simpl negb. cbv iota.
    repeat (wp_step; try solve [simpl; tauto]).
    assert (z6 = d) as ->.
    { unfold dtype_argument in Hd. rewrite Hparsed in Hd.
      rewrite lookup_insert_ne in Hattr6 by discriminate.
      rewrite Hattr6 in Hd. congruence. }
    apply wp_select_dtype;
      [intros dt Hdt | apply recognised_torch_dtype in Hrec; contradiction].
    repeat (wp_step; try solve [simpl; tauto]).
    eapply wp_mono;
      [apply (wp_for_each_inv _ (fun _ => True)); [exact I|];
       intros; apply step_raises_nothing_own; assumption
      | intros ? ? _; cbv beta | auto].
    repeat (wp_step; try solve [simpl; tauto]). }
  apply wp_run in Hwp. intros r Hr.
  destruct (run w) as [[a|r'] s']; simpl in Hr; [discriminate|].
  injection Hr as ->. exact Hwp.
Qed.

Lemma reduce_allowed (w : world (F := F)) line i ps n g s :
  (forall p, In p ps ->
     allowed w (Egrad_div line p n) /\ allowed w (Eall_reduce p g)) ->
  trace_inv (allowed w) s ->
  wp (reduce_grads w line i ps n g) (fun _ s' => trace_inv (allowed w) s')
     (fun _ s' => trace_inv (allowed w) s') s.
Proof.
  intros Hps HI. unfold reduce_grads.
  apply (wp_for_each_inv _ (trace_inv (allowed w))); [exact HI|].
  clear s HI. intros _ p s Hp HI. destruct (Hps p Hp) as [Hdiv Hred].
  repeat tr_step ltac:(assumption). exact HI.
Qed.

Lemma step_allowed (w : world (F := F)) args y avg i s :
  typed args -> allowed w (Enll_loss y) ->
  trace_inv (allowed w) s ->
  wp (step w (penv w) args y avg i) (fun _ s' => trace_inv (allowed w) s')
     (fun _ s' => trace_inv (allowed w) s') s.
Proof.
  intros Ht Hy HI. unfold step.
  repeat (repeat tr_step ltac:(first [exact I | exact Hy]);
          try (eapply wp_mono;
               [apply reduce_allowed; [intros p Hp; simpl; auto | eassumption]
               | intros ? ? ?HI; cbv beta in *
               | let h := fresh in intros ? ? h; exact h])).
  all: assumption.
Qed.

Lemma script_allowed (w : world (F := F)) :
  trace_inv (allowed w) (snd (run w)).
Proof.
  assert (Hwp : wp (script w) (fun _ s => trace_inv (allowed w) s)
                   (fun _ s => trace_inv (allowed w) s) initial).
  { assert (HI : trace_inv (allowed w) initial) by constructor.
    unfold script, ExampleModel, LongTensor, random_, check_distributed.
    repeat tr_step ltac:(exact I).
    pose proof (typed_local_rank ns (local_device_index (penv w)) Htyped) as Htyped'.
    repeat tr_step ltac:(exact I).
    eapply wp_mono;
      [apply (wp_for_each_inv _ (trace_inv (allowed w))); [eassumption|];
       intros; apply step_allowed; try assumption
      | intros ? ? ?HI; cbv beta in *
      | let h := fresh in intros ? ? h; exact h].
    - intros ns' b Hp Hb. rewrite Hparsed in Hp. injection Hp as <-.
      rewrite lookup_insert_ne in Hattr by discriminate.
      rewrite Hattr in Hb. injection Hb as <-. apply mod_1_draws.
    - repeat tr_step ltac:(exact I). assumption. }
  apply wp_run in Hwp. destruct (run w) as [[a|r] s]; exact Hwp.
Qed.

(** C4.  The two lists are computed before the first backward pass.  With
    every [p.grad] still None then, [params_for_all_reduce] is empty and
    [params_for_replicas_all_reduce] holds every parameter, so the branch
    guarded by [global_size > 1] divides no gradient and reduces nothing
    over the global group, at any step and whatever the libraries do. *)
Theorem no_global_reduction (w : world (F := F)) :
  Forall (fun p => grad_is_not_None p = false) (parameters w) ->
  params_for_all_reduce w = [] /\
  params_for_replicas_all_reduce w = seq 0 (List.length (parameters w)) /\
  Forall (fun e => global_reduction e = false) (trace (snd (run w))).
Proof.
  intros Hnone. rewrite List.Forall_forall in Hnone.
  assert (Hnil : params_for_all_reduce w = []).
  { unfold params_for_all_reduce, select.
    apply (select_const for_all_reduce false). intros p Hp.
    unfold for_all_reduce. rewrite (Hnone p Hp). apply andb_false_r. }
  split; [exact Hnil|]. split.
  - unfold params_for_replicas_all_reduce, select.
    apply (select_const (fun p => negb (for_all_reduce p)) true). intros p Hp.
    unfold for_all_reduce. rewrite (Hnone p Hp), andb_false_r. reflexivity.
  - pose proof (script_allowed w) as Hall. unfold trace_inv in Hall.
    eapply List.Forall_impl; [|exact Hall].
    intros e He. destruct e; try reflexivity; simpl in He.
    + destruct He as [[_ Hin]|[-> _]]; [|reflexivity].
      rewrite Hnil in Hin. contradiction.
    + destruct He as [[_ Hin]|[-> _]]; [|reflexivity].
      rewrite Hnil in Hin. contradiction.
Qed.

(** C10.  [random_(1)] leaves only zeros in the target tensor: whatever
    the seed, the generator and the libraries do, every call of
    [nll_loss] receives [batch_size] labels that are all 0. *)
Theorem labels_all_zero (w : world (F := F)) ns b :
  parsed w = Normal ns ->
  ns !! "batch_size" = Some (VInt b) ->
  forall y, In (Enll_loss y) (trace (snd (run w))) ->
            y = repeat 0 (Z.to_nat b).
Proof.
  intros Hp Hb y Hy.
  pose proof (script_allowed w) as Hall. unfold trace_inv in Hall.
  rewrite List.Forall_forall in Hall. exact (Hall _ Hy ns b Hp Hb).
Qed.

Lemma reduce_propagates (w : world (F := F)) line i ps n g s :
  no_failure w s ->
  wp (reduce_grads w line i ps n g) (fun _ s' => no_failure w s')
     (fun r s' => propagated w r s') s.
Proof.
  intros HI. unfold reduce_grads.
  apply (wp_for_each_inv _ (no_failure w)); [exact HI|].
  clear s HI. intros _ p s _ HI.
  repeat nf_step. assumption.
Qed.

Lemma step_propagates (w : world (F := F)) penv args y avg i s :
  typed args -> no_failure w s ->
  wp (step w penv args y avg i) (fun _ s' => no_failure w s')
     (fun r s' => propagated w r s') s.
Proof.
  intros Ht HI. unfold step.
  repeat (repeat nf_step;
          try (eapply wp_mono;
               [apply reduce_propagates; eassumption
               | intros ? ? ?HI; cbv beta in *
               | let h := fresh in intros ? ? h; exact h])).
  all: assumption.
Qed.

(** C8.  The script has no exception handler.  When a library call
    raises, at any point of the script and so also during the
    construction of the model or in a training step, the run ends with
    that very exception, and no further library call is made. *)
Theorem library_exception_propagates (w : world (F := F)) k x :
  (k < ncalls (snd (run w)))%nat ->
  oracle w k = Some x ->
  fst (run w) = Raised (LibraryError x) /\ ncalls (snd (run w)) = S k.
Proof.
  intros Hk Hx.
  assert (Hwp : wp (script w) (fun _ s => no_failure w s)
                   (fun r s => propagated w r s) initial).
  { assert (HI : no_failure w initial) by (intros j Hj; simpl in Hj; lia).
    unfold script, ExampleModel, LongTensor, random_, check_distributed.
    repeat nf_step.
    pose proof (typed_local_rank ns (local_device_index (penv w)) Htyped) as Htyped'.
    repeat nf_step.
    eapply wp_mono;
      [apply (wp_for_each_inv _ (no_failure w)); [eassumption|];
       intros; apply step_propagates; assumption
      | intros ? ? ?HI; cbv beta in *
      | let h := fresh in intros ? ? h; exact h].
    repeat nf_step. assumption. }
  apply wp_run in Hwp. destruct (run w) as [[a|r] s]; simpl in *.
  - rewrite (Hwp k Hk) in Hx. discriminate.
  - destruct (Hwp k x Hk Hx) as [-> ->]. split; reflexivity.
Qed.

(** C2.  The dtype step raises exactly when [--dtype] is none of float32,
    float16 and bfloat16, and what it raises then is the Exception of
    line 63; for each of the three names it sets the default dtype to the
    torch dtype of that name and returns. *)
Theorem dtype_selection (d : string) (s : state (F := F)) :
  ((exists r, fst (select_dtype d s) = Raised r) <->
   ~ In d recognised_dtypes) /\
  (~ In d recognised_dtypes ->
   select_dtype d s = (Raised (unrecognized_dtype_error d), s)) /\
  select_dtype "float32" s = (Normal tt, with_default_dtype float32 s) /\
  select_dtype "float16" s = (Normal tt, with_default_dtype float16 s) /\
  select_dtype "bfloat16" s = (Normal tt, with_default_dtype bfloat16 s).
Proof.
  assert (Hno : ~ In d recognised_dtypes ->
                select_dtype d s = (Raised (unrecognized_dtype_error d), s)).
  { intros Hn. unfold select_dtype.
    destruct (String.eqb_spec d "float32") as [->|];
      [exfalso; apply Hn; simpl; auto|].
    destruct (String.eqb_spec d "float16") as [->|];
      [exfalso; apply Hn; simpl; auto|].
    destruct (String.eqb_spec d "bfloat16") as [->|];
      [exfalso; apply Hn; simpl; auto|].
    reflexivity. }
  repeat split; try reflexivity; try exact Hno.
  - intros [r Hr] [<-|[<-|[<-|[]]]]; discriminate Hr.
  - intros Hn. rewrite (Hno Hn). eauto.
Qed.




Lemma reduce_phased (w : world (F := F)) line i ps n g (s : state (F := F)) :
  phased 3 s ->
  wp (reduce_grads w line i ps n g) (fun _ s' => phased 3 s')
     (fun _ s' => in_order 0 (trace s') = true) s.
Proof.
  intros HI. unfold reduce_grads.
  apply (wp_for_each_inv _ (phased 3)); [exact HI|].
  clear s HI. intros _ p s _ HI.
  repeat ph_step. assumption.
Qed.

Lemma step_phased (w : world (F := F)) penv args y avg i (s : state (F := F)) :
  typed args -> phased 3 s ->
  wp (step w penv args y avg i) (fun _ s' => phased 3 s')
     (fun _ s' => in_order 0 (trace s') = true) s.
Proof.
  intros Ht HI. unfold step.
  repeat (repeat ph_step;
          try (eapply wp_mono;
               [apply reduce_phased; eassumption
               | intros ? ? ?HI; cbv beta in *
               | let h := fresh in intros ? ? h; exact h])).
  all: assumption.
Qed.

Lemma script_phased (w : world (F := F)) :
  wp (script w) (fun _ s => phased 4 s)
     (fun _ s => in_order 0 (trace s) = true) initial.
Proof.
  assert (HI : phased 0 (initial (F := F))) by (split; reflexivity).
  unfold script, ExampleModel, LongTensor, random_, check_distributed.
  repeat ph_step.
  pose proof (typed_local_rank ns (local_device_index (penv w)) Htyped) as Htyped'.
  repeat ph_step.
  eapply wp_mono;
    [apply (wp_for_each_inv _ (phased 3)); [eassumption|];
     intros; apply step_phased; assumption
    | intros ? ? ?HI; cbv beta in *
    | let h := fresh in intros ? ? h; exact h].
  repeat ph_step. assumption.
Qed.

Lemma reduce_progress (w : world (F := F)) line i ps g z times n
    (s : state (F := F)) :
  (forall k, oracle w k = None) ->
  (forall p, In p ps -> grad_after_backward w i p = true) ->
  progress times n s ->
  wp (reduce_grads w line i ps z g) (fun _ s' => progress times n s')
     (fun _ _ => False) s.
Proof.
  intros Hq Hg HI. unfold reduce_grads.
  apply (wp_for_each_inv _ (progress times n)); [exact HI|].
  clear s HI. intros _ p s Hp HI. rewrite (Hg p Hp).
  repeat pg_step. assumption.
Qed.

Lemma step_progress (w : world (F := F)) args y avg i times n
    (s : state (F := F)) :
  (forall k, oracle w k = None) ->
  (forall j p,
     (1 < global_size (penv w) /\ In p (params_for_all_reduce w)) \/
     (1 < group_count (penv w) /\ In p (params_for_replicas_all_reduce w)) ->
     grad_after_backward w j p = true) ->
  typed args -> progress times n s ->
  wp (step w (penv w) args y avg i)
     (fun avg' s' => exists t,
        progress (times ++ [(i, t)]) (S n) s' /\
        avg' = if late i then fadd avg t else avg)
     (fun _ _ => False) s.
Proof.
  intros Hq Hg Ht HI. unfold step.
  repeat (repeat pg_step;
          try (eapply wp_mono;
               [apply reduce_progress;
                [assumption
                | intros p Hp; apply Hg;
                  match goal with
                  | Hgt : (_ >? 1) = true |- _ =>
                      apply Z.gtb_lt in Hgt; tauto
                  end
                | eassumption]
               | intros ? ? ?HI; cbv beta in *
               | let h := fresh in intros ? ? h; exact h])).
  all: eexists; split; [eassumption | reflexivity].
Qed.

Lemma valid_run_trace (w : world (F := F)) :
  valid_run w ->
  exists times t,
    fst (run w) = Normal tt /\
    trace (snd (run w)) =
      t ++ [Edist_print (MSummary (fdiv (accumulate times) (of_int 10)))] /\
    step_times t = times /\ map fst times = seq 0 100 /\
    iterations t = 100%nat /\ summaries t = [].
Proof.
  intros [Hq Hdist (d & Hd & Hrec) (b & Hb & Hb0) Hg].
  assert (Hwp : wp (script w)
            (fun _ s => exists times t,
               trace s = t ++ [Edist_print
                   (MSummary (fdiv (accumulate times) (of_int 10)))] /\
               step_times t = times /\ map fst times = seq 0 100 /\
               iterations t = 100%nat /\ summaries t = [])
            (fun _ _ => False) initial).
  { assert (HI : progress [] 0 (initial (F := F))) by (repeat split).
    unfold script, ExampleModel, random_.
    repeat pg_step.
    2: { unfold dtype_argument in Hd. fold (parsed w) in Hparsed.
         rewrite Hparsed in Hd. discriminate. }
    pose proof (typed_local_rank ns (local_device_index (penv w)) Htyped) as Htyped'.
    unfold check_distributed. rewrite Hdist. simpl negb. cbv iota.
    repeat pg_step.
    2: { apply recognised_torch_dtype in Hrec. apply Hrec.
         unfold dtype_argument in Hd. rewrite Hparsed in Hd.
         rewrite lookup_insert_ne in Hattr6 by discriminate.
         rewrite Hattr6 in Hd. congruence. }
    assert (Hz : (z <? 0)%Z = false).
    { unfold int_argument in Hb. rewrite Hparsed in Hb.
      rewrite lookup_insert_ne in Hattr by discriminate.
      rewrite Hattr in Hb. injection Hb as ->. apply Z.ltb_ge. exact Hb0. }
    unfold LongTensor. apply wp_bind. pg_step.
    rewrite Hz. repeat pg_step.
    change (Z.to_nat num_steps) with 100%nat.
    match goal with
    | |- wp (for_each _ ?body ?acc) _ _ ?s0 =>
        eapply wp_mono;
          [apply (wp_for_each body
                    (fun done avg s => exists times,
                       progress times (List.length done) s /\
                       map fst times = done /\ avg = accumulate times)
                    (fun _ _ => False) (seq 0 100) [] acc s0)
          | cbn [app]; intros avg s' (times & HP & Hfst & Hacc); cbv beta
          | let h := fresh in intros ? ? h; exact h]
    end.
    - exists []. repeat split; assumption.
    - intros l1 x l2 avg s1 _ (times & HP & Hfst & Hacc).
      eapply wp_mono;
        [apply (step_progress w _ _ avg x times (List.length l1) s1);
         assumption
        | | let h := fresh in intros ? ? h; exact h].
      intros avg' s' (t & HP' & Havg). exists (times ++ [(x, t)]).
      rewrite List.length_app, Nat.add_1_r, map_app, Hfst.
      repeat split; [apply HP' | apply HP' | apply HP' |].
      rewrite accumulate_snoc, Havg, Hacc. reflexivity.
    - apply wp_call; [pg_quiet | intros _].
      exists times, (trace s'). destruct HP as (Ht & Hn & Hs).
      rewrite Hacc. repeat split; assumption. }
  apply wp_run in Hwp. destruct (run w) as [[[]|r] s]; simpl; [|contradiction].
  destruct Hwp as (times & t & Ht). exists times, t. split; [reflexivity|exact Ht].
Qed.

Lemma step_times_snoc (t : list (event (F := F))) e :
  step_times (t ++ [e]) = step_times t ++ step_line e.
Proof.
  unfold step_times. rewrite flat_map_app. simpl. rewrite app_nil_r. reflexivity.
Qed.

Lemma summaries_snoc (t : list (event (F := F))) e :
  summaries (t ++ [e]) = summaries t ++ summary_line e.
Proof.
  unfold summaries. rewrite flat_map_app. simpl. rewrite app_nil_r. reflexivity.
Qed.

Lemma iterations_snoc (t : list (event (F := F))) e :
  iterations (t ++ [e]) = (iterations t + Nat.b2n (is_optimizer_step e))%nat.
Proof.
  unfold iterations. rewrite List.filter_app, List.length_app. simpl.
  destruct (is_optimizer_step e); reflexivity.
Qed.

(** C3.  In a valid run the script returns normally; the loop makes
    exactly 100 iterations; the 'STEP-i: DONE' lines passed to dist_print
    are one per iteration, for i = 0, ..., 99 in this order; and exactly
    one '[Summary]' line is passed to dist_print, as the last thing the
    script does. *)
Theorem hundred_steps (w : world (F := F)) :
  valid_run w ->
  fst (run w) = Normal tt /\
  iterations (trace (snd (run w))) = 100%nat /\
  map fst (step_times (trace (snd (run w)))) = seq 0 100 /\
  exists v t, trace (snd (run w)) = t ++ [Edist_print (MSummary v)] /\
              summaries t = [] /\
              summaries (trace (snd (run w))) = [v].
Proof.
  intros Hv.
  destruct (valid_run_trace w Hv) as (times & t & Hn & Ht & Hst & Hfst & Hit & Hsum).
  rewrite Ht. split; [exact Hn|].
  rewrite iterations_snoc, step_times_snoc, summaries_snoc, Hst, Hit, Hsum.
  simpl. rewrite app_nil_r. repeat split; [exact Hfst|].
  eexists _, t. repeat split. exact Hsum.
Qed.

Lemma late_from_90 (i : nat) : late i = (90 <=? i)%nat.
Proof.
  unfold late, num_steps.
  destruct (Nat.leb_spec 90 i); lia.
Qed.

Lemma map_fst_filter {A} (P : nat -> bool) (l : list (nat * A)) :
  map fst (List.filter (fun p => P (fst p)) l) = List.filter P (map fst l).
Proof.
  induction l as [|[i a] l IH]; simpl; [reflexivity|].
  destruct (P i); simpl; rewrite IH; reflexivity.
Qed.

(** C6.  In a valid run the value of the '[Summary]' line is the sum of
    the step times printed for the steps 90, ..., 99, added up in this
    order starting from 0, divided by 10: the mean of the last 10 of the
    100 step times, taken in the arithmetic of Python floats. *)
Theorem summary_is_mean_of_last_ten (w : world (F := F)) :
  valid_run w ->
  let times := step_times (trace (snd (run w))) in
  let last10 := List.filter (fun p => (90 <=? fst p)%nat) times in
  map fst times = seq 0 100 /\
  map fst last10 = seq 90 10 /\
  summaries (trace (snd (run w))) =
    [fdiv (fold_left fadd (map snd last10) (of_int 0)) (of_int 10)].
Proof.
  intros Hv.
  destruct (valid_run_trace w Hv) as (times & t & Hn & Ht & Hst & Hfst & Hit & Hsum).
  cbv zeta. rewrite Ht, step_times_snoc, summaries_snoc, Hst, Hsum.
  cbn [step_line summary_line app]. rewrite app_nil_r.
  split; [exact Hfst|]. split.
  - rewrite (map_fst_filter (fun i => (90 <=? i)%nat)), Hfst. reflexivity.
  - unfold accumulate.
    rewrite (List.filter_ext (fun p => late (fst p))
               (fun p => (90 <=? fst p)%nat))
      by (intros p; apply late_from_90).
    reflexivity.
Qed.

Lemma reduce_scheduled (w : world (F := F)) line i ps n g l
    (s : state (F := F)) :
  (exists rest, schedule = l ++ rest) ->
  milestones (trace s) = l ->
  wp (reduce_grads w line i ps n g) (fun _ s' => milestones (trace s') = l)
     (fun _ s' => scheduled s') s.
Proof.
  intros Hl HI. unfold reduce_grads.
  apply (wp_for_each_inv _ (fun s' => milestones (trace s') = l));
    [exact HI|].
  clear s HI. intros _ p s _ HI. apply wp_bind.
  destruct (grad_after_backward w i p).
  - pose proof (milestones_snoc l (Egrad_div line p n) s
                  (called (Egrad_div line p n) s) eq_refl HI) as H1.
    cbn [milestone_of] in H1. rewrite app_nil_r in H1.
    apply wp_call; [intros ? _ | intros _].
    { unfold scheduled. rewrite H1. exact Hl. }
    pose proof (milestones_snoc l (Eall_reduce p g)
                  (called (Egrad_div line p n) s)
                  (called (Eall_reduce p g) (called (Egrad_div line p n) s))
                  eq_refl H1) as H2.
    cbn [milestone_of] in H2. rewrite app_nil_r in H2.
    apply wp_call; [intros ? _ | intros _].
    { unfold scheduled. rewrite H2. exact Hl. }
    exact H2.
  - apply wp_raise. unfold scheduled. rewrite HI. exact Hl.
Qed.

Lemma step_scheduled (w : world (F := F)) args y avg i done
    (s : state (F := F)) :
  typed args ->
  (forall reached rest',
     step_milestones i = reached ++ rest' ->
     exists rest, schedule = (done ++ reached) ++ rest) ->
  milestones (trace s) = done ->
  wp (step w (penv w) args y avg i)
     (fun _ s' => milestones (trace s') = done ++ step_milestones i)
     (fun _ s' => scheduled s') s.
Proof.
  intros Ht Hsched HI. unfold step.
  repeat (repeat ms_step ltac:(scheduled_step Hsched);
          try (eapply wp_mono;
               [eapply reduce_scheduled; [|eassumption];
                eapply Hsched; reflexivity
               | intros ? ? ?HI; cbv beta in *
               | let h := fresh in intros ? ? h; exact h])).
  all: assumption.
Qed.

Lemma script_scheduled (w : world (F := F)) :
  wp (script w) (fun _ s => milestones (trace s) = schedule)
     (fun _ s => scheduled s) initial.
Proof.
  assert (HI : milestones (trace (initial (F := F))) = []) by reflexivity.
  unfold script, ExampleModel, random_, LongTensor, check_distributed.
  repeat ms_step ltac:(scheduled_prefix).
  pose proof (typed_local_rank ns (local_device_index (penv w)) Htyped) as Htyped'.
  repeat ms_step ltac:(scheduled_prefix).
  change (Z.to_nat num_steps) with 100%nat.
  match goal with
  | |- wp (for_each _ ?body ?acc) _ _ ?s0 =>
      eapply wp_mono;
        [apply (wp_for_each body
                  (fun done _ s =>
                     milestones (trace s) =
                     [Mparse_args; Minit_data_model_parallel; Mdevice_line;
                      Mset_default_dtype; Mmoe_layer] ++
                     flat_map step_milestones done)
                  (fun _ s => scheduled s) (seq 0 100) [] acc s0)
        | cbn [app]; intros avg s' HI'; cbv beta
        | let h := fresh in intros ? ? h; exact h]
  end.
  - cbn [flat_map app]. assumption.
  - intros l1 x l2 avg s1 Heq HI1. cbn [app] in Heq.
    eapply wp_mono;
      [eapply (step_scheduled w _ _ avg x _ s1); [assumption | | exact HI1]
      | | let h := fresh in intros ? ? h; exact h].
    + intros reached rest' Hr.
      exists (rest' ++ flat_map step_milestones l2 ++ [Msummary_line]).
      rewrite schedule_unfold, Heq, flat_map_app. cbn [flat_map].
      rewrite Hr, <- !app_assoc. reflexivity.
    + intros avg' s' HI'. cbv beta.
      rewrite HI', flat_map_app. cbn [flat_map].
      rewrite app_nil_r, <- !app_assoc. reflexivity.
  - pose proof (milestones_snoc _
                  (Edist_print (MSummary (fdiv avg (of_int 10)))) s'
                  (called (Edist_print (MSummary (fdiv avg (of_int 10)))) s')
                  eq_refl HI') as HI''.
    cbn [milestone_of] in HI''.
    assert (Hfin : milestones
                     (trace (called (Edist_print
                               (MSummary (fdiv avg (of_int 10)))) s')) =
                   schedule)
      by (rewrite HI'', schedule_unfold; reflexivity).
    apply wp_call; [intros ? _ | intros _]; [|exact Hfin].
    exists []. rewrite Hfin, app_nil_r. reflexivity.
Qed.

(** C7.  In every run the events come in the order of the four phases:
    argument parsing, initialisation of the distributed environment,
    model construction and training loop, timing summary, none skipped
    and none returned to.  The work of the phases is done in the order of
    the schedule: [parse_args]; [init_data_model_parallel] and, once the
    check of the launch mode has passed, the device line; the default
    dtype, the MoE layer and 100 training steps, each a forward pass, a
    backward pass, an optimizer step and its STEP line; the Summary line.
    However a run ends it has gone through the schedule from its start,
    and a run that returns normally has gone through all of it.  The
    launch mode is checked before the dtype: when the session is not
    distributed and the dtype is not recognised either, the error raised
    is the RuntimeError of line 45. *)
Theorem phases_in_order (w : world (F := F)) :
  in_order 0 (trace (snd (run w))) = true /\
  scheduled (snd (run w)) /\
  (fst (run w) = Normal tt ->
   last_phase 0 (trace (snd (run w))) = 4%nat /\
   milestones (trace (snd (run w))) = schedule) /\
  (forall d,
     (forall n, (n < 3)%nat -> oracle w n = None) ->
     is_distributed (penv w) = false ->
     dtype_argument w = Some d -> ~ In d recognised_dtypes ->
     fst (run w) = Raised not_distributed_error).
Proof.
  pose proof (script_phased w) as Hwp. apply wp_run in Hwp.
  pose proof (script_scheduled w) as Hms. apply wp_run in Hms.
  split; [|split; [|split]].
  - destruct (run w) as [[a|r] s]; simpl; [apply Hwp | exact Hwp].
  - destruct (run w) as [[a|r] s]; simpl; [|exact Hms].
    exists []. rewrite Hms, app_nil_r. reflexivity.
  - destruct (run w) as [[a|r] s]; simpl; [|discriminate].
    intros _. split; [apply Hwp | exact Hms].
  - intros d Hret Hdist Hd _.
    rewrite (run_not_distributed w Hret); [reflexivity | | exact Hdist].
    unfold dtype_argument in Hd. destruct (parsed w) as [ns|]; [eauto|discriminate].
Qed.

End Claims.

(** * Further properties of the script *)

(** A step of symbolic execution that carries an invariant of the trace
    along and keeps what it learns about the namespace and the dtype. *)
Ltac wr_step solveP :=
  lazymatch goal with
  | HI : trace_inv ?P ?s |- wp (call _ ?e) _ _ ?s =>
      let HI' := fresh "HI" in
      assert (HI' : trace_inv P (called e s))
        by (apply trace_inv_called; [exact HI | solveP]);
      clear HI; apply wp_call; [intros ? _; exact HI' | intros _]; cbv beta
  | HI : trace_inv ?P ?s |- wp (call_ret _ ?e _) _ _ ?s =>
      let HI' := fresh "HI" in
      assert (HI' : trace_inv P (called e s))
        by (apply trace_inv_called; [exact HI | solveP]);
      clear HI; apply wp_call_ret; [intros ? _; exact HI' | intros _]; cbv beta
  | HI : trace_inv ?P ?s |- wp (parse ?w) _ _ ?s =>
      let HI' := fresh "HI" in
      assert (HI' : trace_inv P (record (Eparse_args (argv w)) s))
        by (apply trace_inv_record; [exact HI | solveP]);
      clear HI; apply wp_parse;
      [intros ?ns ?Hparsed ?Htyped | intros _; exact HI']; cbv beta
  | HI : trace_inv ?P ?s |- wp (select_dtype ?d) _ _ ?s =>
      let dt := fresh "dt" in
      let Hdt := fresh "Hdt" in
      let HI' := fresh "HI" in
      apply wp_select_dtype;
      [intros dt Hdt;
       assert (HI' : trace_inv P (with_default_dtype dt s))
         by (apply trace_inv_dtype; [exact HI | solveP]);
       clear HI
      | intros _; exact HI]; cbv beta
  | HI : trace_inv ?P ?s |- wp (raise _) _ _ ?s => apply wp_raise; exact HI
  | _ => wp_step
  end.

(** A step of symbolic execution that carries the lines printed and the
    iterations made along, in any world; [fin] proves what is claimed of
    the state in which an exception leaves. *)
Ltac pr_step fin :=
  lazymatch goal with
  | HI : progress ?times ?n ?s |- wp (call _ ?e) _ _ ?s =>
      let HI' := fresh "HI" in
      pose proof (progress_snoc times n e s (called e s) eq_refl HI eq_refl)
        as HI';
      cbn [step_line is_optimizer_step Nat.b2n] in HI';
      rewrite ?app_nil_r, ?Nat.add_0_r, ?Nat.add_1_r in HI';
      clear HI; apply wp_call; [intros ? _; fin | intros _]; cbv beta
  | HI : progress ?times ?n ?s |- wp (call_ret _ ?e _) _ _ ?s =>
      let HI' := fresh "HI" in
      pose proof (progress_snoc times n e s (called e s) eq_refl HI eq_refl)
        as HI';
      cbn [step_line is_optimizer_step Nat.b2n] in HI';
      rewrite ?app_nil_r, ?Nat.add_0_r, ?Nat.add_1_r in HI';
      clear HI; apply wp_call_ret; [intros ? _; fin | intros _]; cbv beta
  | HI : progress ?times ?n ?s |- wp (parse ?w) _ _ ?s =>
      let HI' := fresh "HI" in
      pose proof (progress_snoc times n (Eparse_args (argv w)) s
                    (record (Eparse_args (argv w)) s) eq_refl HI eq_refl)
        as HI';
      cbn [step_line is_optimizer_step Nat.b2n] in HI';
      rewrite ?app_nil_r, ?Nat.add_0_r in HI';
      clear HI; apply wp_parse;
      [intros ?ns ?Hparsed ?Htyped | intros _; fin]; cbv beta
  | HI : progress ?times ?n ?s |- wp (select_dtype ?d) _ _ ?s =>
      let dt := fresh "dt" in
      let HI' := fresh "HI" in
      apply wp_select_dtype;
      [intros dt _;
       pose proof (progress_snoc times n (Eset_default_dtype dt) s
                     (with_default_dtype dt s) eq_refl HI eq_refl) as HI';
       cbn [step_line is_optimizer_step Nat.b2n] in HI';
       rewrite ?app_nil_r, ?Nat.add_0_r in HI';
       clear HI
      | intros _; fin]; cbv beta
  | HI : progress _ _ ?s |- wp (raise _) _ _ ?s => apply wp_raise; fin
  | _ => wp_step
  end.

Section Extras.
Context {F : Type} `{Float F}.
Import argparse.

Lemma int_argument_attr (w : world (F := F)) ns v name z :
  parsed w = Normal ns -> name <> "local_rank" ->
  (<["local_rank" := v]> ns) !! name = Some (VInt z) ->
  int_argument w name = Some z.
Proof.
  intros Hp Hn Ha. unfold int_argument. rewrite Hp.
  rewrite lookup_insert_ne in Ha by congruence. rewrite Ha. reflexivity.
Qed.

Lemma bool_argument_attr (w : world (F := F)) ns v name z :
  parsed w = Normal ns -> name <> "local_rank" ->
  (<["local_rank" := v]> ns) !! name = Some (VBool z) ->
  bool_argument w name = Some z.
Proof.
  intros Hp Hn Ha. unfold bool_argument. rewrite Hp.
  rewrite lookup_insert_ne in Ha by congruence. rewrite Ha. reflexivity.
Qed.

Lemma float_argument_attr (w : world (F := F)) ns v name z :
  parsed w = Normal ns -> name <> "local_rank" ->
  (<["local_rank" := v]> ns) !! name = Some (VFloat z) ->
  float_argument w name = Some z.
Proof.
  intros Hp Hn Ha. unfold float_argument. rewrite Hp.
  rewrite lookup_insert_ne in Ha by congruence. rewrite Ha. reflexivity.
Qed.

Lemma dtype_argument_attr (w : world (F := F)) ns v z :
  parsed w = Normal ns ->
  (<["local_rank" := v]> ns) !! "dtype" = Some (VStr z) ->
  dtype_argument w = Some z.
Proof.
  intros Hp Ha. unfold dtype_argument. rewrite Hp.
  rewrite lookup_insert_ne in Ha by discriminate. rewrite Ha. reflexivity.
Qed.

Lemma local_rank_attr (ns : gmap string (value F)) i z :
  (<["local_rank" := VInt i]> ns) !! "local_rank" = Some (VInt z) -> z = i.
Proof. rewrite lookup_insert_eq. congruence. Qed.

Lemma reduce_trace_inv (w : world (F := F)) P line i ps n g s :
  (forall p, In p ps -> P (Egrad_div line p n) /\ P (Eall_reduce p g)) ->
  trace_inv P s ->
  wp (reduce_grads w line i ps n g) (fun _ s' => trace_inv P s')
     (fun _ s' => trace_inv P s') s.
Proof.
  intros Hps HI. unfold reduce_grads.
  apply (wp_for_each_inv _ (trace_inv P)); [exact HI|].
  clear s HI. intros _ p s Hp HI. destruct (Hps p Hp) as [Hdiv Hred].
  repeat wr_step ltac:(assumption). exact HI.
Qed.

Ltac arg_fact :=
  first
    [ eapply int_argument_attr; [eassumption | discriminate | eassumption]
    | eapply bool_argument_attr; [eassumption | discriminate | eassumption]
    | eapply float_argument_attr; [eassumption | discriminate | eassumption]
    | eapply dtype_argument_attr; eassumption
    | eapply local_rank_attr; eassumption ].

Ltac wired_solve :=
  simpl;
  repeat first [ exact I | reflexivity | assumption | arg_fact | split | eexists ].

Lemma step_wired (w : world (F := F)) args y avg i s :
  typed args ->
  (forall x, args !! "l_aux_wt" = Some (VFloat x) ->
             float_argument w "l_aux_wt" = Some x) ->
  trace_inv (wired w) s ->
  wp (step w (penv w) args y avg i) (fun _ s' => trace_inv (wired w) s')
     (fun _ s' => trace_inv (wired w) s') s.
Proof.
  intros Ht Hf HI. unfold step.
  repeat (repeat wr_step ltac:(first
            [ exact I | reflexivity
            | eexists; split; [apply Hf; eassumption | eassumption] ]);
          try (eapply wp_mono;
               [apply (reduce_trace_inv w (wired w));
                [intros p Hp; simpl;
                 match goal with
                 | Hgt : (_ >? 1) = true |- _ =>
                     apply Z.gtb_lt in Hgt; tauto
                 end
                | eassumption]
               | intros ? ? ?HI; cbv beta in *
               | let h := fresh in intros ? ? h; exact h])).
  all: assumption.
Qed.

Lemma script_wired (w : world (F := F)) :
  trace_inv (wired w) (snd (run w)).
Proof.
  assert (Hwp : wp (script w) (fun _ s => trace_inv (wired w) s)
                   (fun _ s => trace_inv (wired w) s) initial).
  { assert (HI : trace_inv (wired w) initial) by constructor.
    unfold script, ExampleModel, LongTensor, random_, check_distributed.
    repeat wr_step ltac:(wired_solve).
    pose proof (typed_local_rank ns (local_device_index (penv w)) Htyped) as Htyped'.
    fold (parsed w) in Hparsed.
    repeat wr_step ltac:(wired_solve).
    eapply wp_mono;
      [apply (wp_for_each_inv _ (trace_inv (wired w))); [eassumption|];
       intros; apply step_wired; try assumption
      | intros ? ? ?HI; cbv beta in *
      | let h := fresh in intros ? ? h; exact h].
    - intros wt Hwt. eapply float_argument_attr; [eassumption | discriminate | eassumption].
    - repeat wr_step ltac:(wired_solve). assumption. }
  apply wp_run in Hwp. destruct (run w) as [[a|r] s]; exact Hwp.
Qed.

Lemma in_trace (w : world (F := F)) P e :
  trace_inv P (snd (run w)) -> In e (trace (snd (run w))) -> P e.
Proof.
  unfold trace_inv. rewrite List.Forall_forall. auto.
Qed.

(** X1.  Whatever [--local_rank] says, the device index passed to
    [torch.device] and the device printed in the Benchmark line are
    [parallel_env.local_device.index]: line 42 overwrites the parsed
    value before it is read. *)
Theorem device_is_local_device (w : world (F := F)) :
  (forall i, In (Etorch_device i) (trace (snd (run w))) ->
             i = local_device_index (penv w)) /\
  (forall ws dt md hs samples nle topk dev groups,
     In (Edist_print (MBenchmark ws dt md hs samples nle topk dev groups))
        (trace (snd (run w))) ->
     dev = local_device_index (penv w)).
Proof.
  pose proof (script_wired w) as Hw. split.
  - intros i Hi. exact (in_trace w _ _ Hw Hi).
  - intros ws dt md hs samples nle topk dev groups Hi.
    apply (in_trace w _ _ Hw) in Hi. simpl in Hi. tauto.
Qed.

(** X2.  A gradient is divided by a size the library reports: line 119
    divides by [parallel_env.global_size], line 123 by
    [parallel_env.group_count], and the Benchmark line prints these two as
    world_size and group_count, whatever was given to [--group_count],
    which line 40 does not pass on. *)
Theorem divisors_are_group_sizes (w : world (F := F)) :
  (forall line p n, In (Egrad_div line p n) (trace (snd (run w))) ->
     (line = 119%nat /\ n = global_size (penv w)) \/
     (line = 123%nat /\ n = group_count (penv w))) /\
  (forall ws dt md hs samples nle topk dev groups,
     In (Edist_print (MBenchmark ws dt md hs samples nle topk dev groups))
        (trace (snd (run w))) ->
     ws = global_size (penv w) /\ groups = group_count (penv w)).
Proof.
  pose proof (script_wired w) as Hw. split.
  - intros line p n Hi. apply (in_trace w _ _ Hw) in Hi. simpl in Hi. tauto.
  - intros ws dt md hs samples nle topk dev groups Hi.
    apply (in_trace w _ _ Hw) in Hi. simpl in Hi. tauto.
Qed.

(** X3.  The branches of lines 117 and 121 are guarded: a gradient is
    divided at line 119, or reduced over the global group, only when
    [global_size > 1]; it is divided at line 123, or reduced over the data
    group, only when [group_count > 1]; the script's own [all_reduce]
    calls never use the model group, which it only hands to [moe_layer]
    (line 76). *)
Theorem reductions_are_guarded (w : world (F := F)) :
  (global_size (penv w) <= 1 ->
   forall p n, ~ In (Egrad_div 119 p n) (trace (snd (run w))) /\
               ~ In (Eall_reduce p global_group) (trace (snd (run w)))) /\
  (group_count (penv w) <= 1 ->
   forall p n, ~ In (Egrad_div 123 p n) (trace (snd (run w))) /\
               ~ In (Eall_reduce p data_group) (trace (snd (run w)))) /\
  (forall p, ~ In (Eall_reduce p model_group) (trace (snd (run w)))).
Proof.
  pose proof (script_wired w) as Hw.
  split; [|split].
  - intros Hle p n. split; intros Hi; apply (in_trace w _ _ Hw) in Hi;
      simpl in Hi; destruct Hi as [Hi|Hi]; destruct Hi; try lia; discriminate.
  - intros Hle p n. split; intros Hi; apply (in_trace w _ _ Hw) in Hi;
      simpl in Hi; destruct Hi as [Hi|Hi]; destruct Hi; try lia; discriminate.
  - intros p Hi. apply (in_trace w _ _ Hw) in Hi. simpl in Hi.
    destruct Hi as [[Hi _]|[Hi _]]; discriminate.
Qed.

(** X4.  The dtype of the input tensor is the one [--dtype] names: what
    line 95 reads with [torch.get_default_dtype()] is what lines 56-61
    have set. *)
Theorem tensor_dtype_follows_argument (w : world (F := F)) :
  forall d, In (Etensor d) (trace (snd (run w))) ->
    exists ds, dtype_argument w = Some ds /\ torch_dtype ds = Some d.
Proof.
  intros d Hi. exact (in_trace w _ _ (script_wired w) Hi).
Qed.

(** X5.  The MoE layer is built from the command line: [k] is [--top],
    [fp32_gate] is [--fp32_gate], [count_per_node] is
    [--num_local_experts], [hidden_size_per_expert] is [--hidden_size],
    [model_dim] is [--model_dim], and the second seed is the model rank
    plus one; the input has the shape
    [batch_size, num_tokens, model_dim]. *)
Theorem moe_layer_follows_arguments (w : world (F := F)) :
  (forall k fp cnt hid dim seed,
     In (Emoe_layer k fp cnt hid dim seed) (trace (snd (run w))) ->
     int_argument w "top" = Some k /\
     bool_argument w "fp32_gate" = Some fp /\
     int_argument w "num_local_experts" = Some cnt /\
     int_argument w "hidden_size" = Some hid /\
     int_argument w "model_dim" = Some dim /\
     seed = model_rank (penv w) + 1) /\
  (forall shape, In (Erandn shape) (trace (snd (run w))) ->
     exists b t m,
       int_argument w "batch_size" = Some b /\
       int_argument w "num_tokens" = Some t /\
       int_argument w "model_dim" = Some m /\ shape = [b; t; m]).
Proof.
  pose proof (script_wired w) as Hw. split.
  - intros k fp cnt hid dim seed Hi. exact (in_trace w _ _ Hw Hi).
  - intros shape Hi. exact (in_trace w _ _ Hw Hi).
Qed.

(** X6.  The auxiliary loss is added only when [--l_aux_wt] is truthy: with
    a weight whose truth value is False, line 115 never runs. *)
Theorem aux_loss_needs_weight (w : world (F := F)) x :
  float_argument w "l_aux_wt" = Some x ->
  ftruthy x = false ->
  ~ In Eadd_l_aux (trace (snd (run w))).
Proof.
  intros Hx Hf Hi. apply (in_trace w _ _ (script_wired w)) in Hi.
  simpl in Hi. destruct Hi as (y & Hy & Ht). congruence.
Qed.

Lemma In_indexed {A} (ps : list A) : forall k p (x : A),
  In (p, x) (combine (seq k (List.length ps)) ps) <->
  (k <= p)%nat /\ nth_error ps (p - k) = Some x.
Proof.
  induction ps as [|q ps IH]; intros k p x; simpl.
  - split; [contradiction|]. intros [_ Hn]. destruct (p - k)%nat; discriminate.
  - rewrite IH. split.
    + intros [[= <- <-]|[Hle Hn]].
      * split; [lia|]. rewrite Nat.sub_diag. reflexivity.
      * split; [lia|]. replace (p - k)%nat with (S (p - S k)) by lia. exact Hn.
    + intros [Hle Hn]. destruct (Nat.eq_dec k p) as [->|Hne].
      * rewrite Nat.sub_diag in Hn. injection Hn as ->. left. reflexivity.
      * right. split; [lia|].
        replace (p - k)%nat with (S (p - S k)) in Hn by lia. exact Hn.
Qed.

Lemma select_In (keep : parameter -> bool) ps p :
  In p (select keep ps) <->
  exists prm, nth_error ps p = Some prm /\ keep prm = true.
Proof.
  unfold select. rewrite in_map_iff. split.
  - intros ([q prm] & Hq & Hin). simpl in Hq. subst q.
    apply List.filter_In in Hin as [Hin Hk]. simpl in Hk.
    apply In_indexed in Hin as [_ Hn]. rewrite Nat.sub_0_r in Hn. eauto.
  - intros (prm & Hn & Hk). exists (p, prm). split; [reflexivity|].
    apply List.filter_In. split; [|exact Hk].
    apply In_indexed. rewrite Nat.sub_0_r. split; [lia | exact Hn].
Qed.

(** X7.  Lines 103 and 104 split the parameters: every parameter of the
    model is in exactly one of [params_for_all_reduce] and
    [params_for_replicas_all_reduce], and the lists hold nothing else. *)
Theorem parameter_lists_partition (w : world (F := F)) (p : nat) :
  ((p < List.length (parameters w))%nat <->
   In p (params_for_all_reduce w) \/
   In p (params_for_replicas_all_reduce w)) /\
  ~ (In p (params_for_all_reduce w) /\
     In p (params_for_replicas_all_reduce w)).
Proof.
  unfold params_for_all_reduce, params_for_replicas_all_reduce.
  rewrite !select_In. split; [split|].
  - intros Hlt. destruct (nth_error (parameters w) p) as [prm|] eqn:Hn.
    + destruct (for_all_reduce prm) eqn:Hk.
      * left. eauto.
      * right. exists prm. rewrite Hk. auto.
    + apply nth_error_None in Hn. lia.
  - intros [(prm & Hn & _)|(prm & Hn & _)];
      apply nth_error_Some; congruence.
  - intros [(prm & Hn & Hk) (prm' & Hn' & Hk')].
    assert (prm' = prm) by congruence. subst prm'.
    rewrite Hk in Hk'. discriminate.
Qed.

(** X8.  Every gradient that is reduced belongs to a parameter of the
    model, and the group follows from what line 103 found on it: over
    the global group when it had no [skip_allreduce] attribute, required
    a gradient and had one; over the data group otherwise. *)
Theorem reduced_parameters_are_selected (w : world (F := F)) (p : nat) g :
  In (Eall_reduce p g) (trace (snd (run w))) ->
  exists prm, nth_error (parameters w) p = Some prm /\
    ((g = global_group /\ has_skip_allreduce prm = false /\
      requires_grad prm = true /\ grad_is_not_None prm = true) \/
     (g = data_group /\
      (has_skip_allreduce prm = true \/ requires_grad prm = false \/
       grad_is_not_None prm = false))).
Proof.
  intros Hi. apply (in_trace w _ _ (script_allowed w)) in Hi. simpl in Hi.
  destruct Hi as [[Hg Hin]|[Hg Hin]];
    apply select_In in Hin as (prm & Hn & Hk); exists prm;
    (split; [exact Hn|]); unfold for_all_reduce in Hk.
  - left. split; [exact Hg|].
    apply andb_prop in Hk as [Hk Hgrad]. apply andb_prop in Hk as [Hskip Hreq].
    apply negb_true_iff in Hskip. auto.
  - right. split; [exact Hg|].
    destruct (has_skip_allreduce prm); [auto|].
    destruct (requires_grad prm); [|auto].
    destruct (grad_is_not_None prm); [discriminate | auto].
Qed.

Ltac cause_solve :=
  first [ solve [simpl; left; eauto] | solve [simpl; assumption] ].

Lemma reduce_failure_cause (w : world (F := F)) line i ps n g
    (s : state (F := F)) :
  (forall p, In p ps -> grad_after_backward w i p = false ->
             failure_cause w (grad_type_error line)) ->
  wp (reduce_grads w line i ps n g) (fun _ _ => True)
     (fun r _ => failure_cause w r) s.
Proof.
  intros Hps. unfold reduce_grads.
  apply (wp_for_each_inv _ (fun _ => True)); [exact I|].
  intros _ p s' Hp _.
  repeat (wp_step; try cause_solve).
  - exact I.
  - exact (Hps p Hp Heqb).
Qed.

Lemma step_failure_cause (w : world (F := F)) args y avg i
    (s : state (F := F)) :
  typed args ->
  wp (step w (penv w) args y avg i) (fun _ _ => True)
     (fun r _ => failure_cause w r) s.
Proof.
  intros Ht. unfold step.
  repeat (repeat (wp_step; try cause_solve);
          try (eapply wp_mono;
               [apply reduce_failure_cause;
                intros p Hp Hg; split; [reflexivity|];
                exists i, p; split; [exact Hg|];
                match goal with
                | Hgt : (_ >? 1) = true |- _ =>
                    apply Z.gtb_lt in Hgt; tauto
                end
               | intros ? ? _; cbv beta
               | let h := fresh in intros ? ? h; exact h])).
  all: exact I.
Qed.

(** X9.  Every way a run can end in an exception has its cause: argparse
    left through sys.exit; the session is not distributed (line 45); it is
    distributed and the dtype is not recognised (line 63); a gradient
    divided at line 119 or 123 is None; the batch size is negative; or a
    library call raised.  In particular no attribute of [args] that the
    script reads is ever missing. *)
Theorem failures_have_causes (w : world (F := F)) r :
  fst (run w) = Raised r -> failure_cause w r.
Proof.
  assert (Hwp : wp (script w) (fun _ _ => True)
                   (fun r _ => failure_cause w r) initial).
  { unfold script, ExampleModel, random_, LongTensor, check_distributed.
    repeat (wp_step; try cause_solve).
    { simpl. left. split; [reflexivity|]. apply negb_true_iff. exact Heqb. }
    apply negb_false_iff in Heqb.
    pose proof (typed_local_rank ns (local_device_index (penv w)) Htyped) as Htyped'.
    fold (parsed w) in Hparsed.
    repeat (wp_step; try cause_solve).
    apply wp_select_dtype; [intros dt Hdt|intros Hdt].
    2: { simpl. right. exists z6. split; [reflexivity|].
         split; [eapply dtype_argument_attr; eassumption|].
         split; [|exact Heqb].
         intros Hin. apply recognised_torch_dtype in Hin. contradiction. }
    repeat (wp_step; try cause_solve).
    { simpl. right. split; [reflexivity|]. exists z. split.
      - eapply int_argument_attr; [eassumption | discriminate | eassumption].
      - apply Z.ltb_lt. assumption. }
    eapply wp_mono;
      [apply (wp_for_each_inv _ (fun _ => True)); [exact I|];
       intros; apply step_failure_cause; assumption
      | intros ? ? _; cbv beta
      | let h := fresh in intros ? ? h; exact h].
    repeat (wp_step; try cause_solve). exact I. }
  apply wp_run in Hwp. intros Hr.
  destruct (run w) as [[a|r'] s']; simpl in Hr; [discriminate|].
  injection Hr as ->. exact Hwp.
Qed.

(** X10.  A command line that argparse rejects ends the run in
    [SystemExit] at line 38: the distributed environment is never
    initialised. *)
Theorem rejected_command_line_exits (w : world (F := F)) :
  (forall n, (n < 2)%nat -> oracle w n = None) ->
  (forall ns, parsed w <> Normal ns) ->
  fst (run w) = Raised SystemExit /\
  trace (snd (run w)) =
    [Einit_affinity; Elogging_basicConfig; Eparse_args (argv w)] /\
  ncalls (snd (run w)) = 2%nat.
Proof.
  intros Hret Hrej.
  assert (Hwp : wp (script w) (fun _ _ => False)
            (fun r s => r = SystemExit /\
               s = record (Eparse_args (argv w))
                     (called Elogging_basicConfig
                        (called Einit_affinity initial)))
            initial).
  { unfold script.
    wp_step. wp_step. { simpl in Hx. rewrite Hret in Hx by lia. discriminate. }
    wp_step. wp_step. { simpl in Hx. rewrite Hret in Hx by lia. discriminate. }
    wp_step. wp_step.
    - exfalso. exact (Hrej ns Hparsed).
    - split; reflexivity. }
  apply wp_run in Hwp. destruct (run w) as [[[]|r] s]; [contradiction|].
  destruct Hwp as [-> ->]. repeat split.
Qed.

(** X11.  In a distributed session, a [--dtype] that is none of the three
    names ends the run in the Exception of line 63, whose message carries
    the name; by then the device line has been printed and the device
    chosen, but the default dtype is untouched and no model has been
    constructed. *)
Theorem unrecognised_dtype_stops_before_model (w : world (F := F)) d :
  (forall n, (n < 5)%nat -> oracle w n = None) ->
  is_distributed (penv w) = true ->
  dtype_argument w = Some d ->
  ~ In d recognised_dtypes ->
  fst (run w) = Raised (unrecognized_dtype_error d) /\
  trace (snd (run w)) =
    [Einit_affinity; Elogging_basicConfig; Eparse_args (argv w);
     Einit_data_model_parallel;
     Eprint (MDevice (global_rank (penv w)) (data_rank (penv w))
               (model_rank (penv w)));
     Etorch_device (local_device_index (penv w))] /\
  default_dtype (snd (run w)) = float32.
Proof.
  intros Hret Hdist Hd Hrec.
  assert (Hwp : wp (script w) (fun _ _ => False)
            (fun r s => r = unrecognized_dtype_error d /\
               s = called (Etorch_device (local_device_index (penv w)))
                     (called (Eprint (MDevice (global_rank (penv w))
                                (data_rank (penv w)) (model_rank (penv w))))
                        (called Einit_data_model_parallel
                           (record (Eparse_args (argv w))
                              (called Elogging_basicConfig
                                 (called Einit_affinity initial))))))
            initial).
  { unfold script.
    wp_step. wp_step. { simpl in Hx. rewrite Hret in Hx by lia. discriminate. }
    wp_step. wp_step. { simpl in Hx. rewrite Hret in Hx by lia. discriminate. }
    wp_step. wp_step.
    2: { unfold dtype_argument in Hd. fold (parsed w) in Hparsed.
         rewrite Hparsed in Hd. discriminate. }
    wp_step. wp_step. { simpl in Hx. rewrite Hret in Hx by lia. discriminate. }
    pose proof (typed_local_rank ns (local_device_index (penv w)) Htyped)
      as Htyped'.
    wp_step. unfold check_distributed. rewrite Hdist. simpl negb. cbv iota.
    wp_step.
    wp_step. wp_step. { simpl in Hx. rewrite Hret in Hx by lia. discriminate. }
    repeat wp_step.
    { simpl in Hx. rewrite Hret in Hx by lia. discriminate. }
    assert (Hz6 : z6 = d).
    { fold (parsed w) in Hparsed.
      pose proof (dtype_argument_attr w _ _ _ Hparsed Hattr6) as Hd'.
      congruence. }
    assert (Hloc : z5 = local_device_index (penv w)).
    { rewrite lookup_insert_eq in Hattr5. congruence. }
    subst z6 z5.
    apply wp_select_dtype.
    - intros dt Hdt. exfalso. apply Hrec. apply recognised_torch_dtype. congruence.
    - intros _. split; reflexivity. }
  apply wp_run in Hwp. destruct (run w) as [[[]|r] s]; [contradiction|].
  destruct Hwp as [-> ->]. repeat split.
Qed.

Lemma reduce_missing_gradient (w : world (F := F)) line i z g p times n :
  (forall k, oracle w k = None) ->
  grad_after_backward w i p = false ->
  forall ps (s : state (F := F)),
  In p ps -> progress times n s ->
  wp (reduce_grads w line i ps z g) (fun _ _ => False)
     (fun r s' => r = grad_type_error line /\ progress times n s') s.
Proof.
  intros Hq Hp. unfold reduce_grads.
  induction ps as [|q ps IH]; intros s Hin HI; [contradiction|].
  cbn [for_each]. apply wp_bind. apply wp_bind.
  destruct (grad_after_backward w i q) eqn:Hgq.
  - repeat pg_step.
    destruct Hin as [->|Hin]; [congruence|].
    apply IH; assumption.
  - apply wp_raise. split; [reflexivity | exact HI].
Qed.

Lemma step_missing_gradient (w : world (F := F)) args y avg i p times n
    (s : state (F := F)) :
  (forall k, oracle w k = None) ->
  (forall q, 1 < global_size (penv w) -> In q (params_for_all_reduce w) ->
             grad_after_backward w i q = true) ->
  1 < group_count (penv w) ->
  In p (params_for_replicas_all_reduce w) ->
  grad_after_backward w i p = false ->
  typed args -> progress times n s ->
  wp (step w (penv w) args y avg i) (fun _ _ => False)
     (fun r s' => r = grad_type_error 123 /\ progress times n s') s.
Proof.
  intros Hq Hg Hgc Hin Hp Ht HI. unfold step.
  apply Z.gtb_lt in Hgc. rewrite Hgc.
  repeat (repeat pg_step;
          try (eapply wp_mono;
               [apply reduce_progress;
                [assumption
                | intros q Hq'; apply Hg;
                  [match goal with
                   | Hgt : (_ >? 1) = true |- _ =>
                       apply Z.gtb_lt in Hgt; exact Hgt
                   end
                  | exact Hq']
                | eassumption]
               | intros ? ? ?HI; cbv beta in *
               | intros ? ? []])).
  all: eapply wp_mono;
    [apply (reduce_missing_gradient w 123 i _ _ p); eassumption
    | intros ? ? []
    | let h := fresh in intros ? ? h; exact h].
Qed.

(** X12.  [p.grad /= n] does not test the gradient that lines 103-104
    tested before any backward pass: when the first backward pass leaves
    a parameter of the second list without a gradient and there is more
    than one group, the run ends in the TypeError of line 123 in the
    first step, before [optimizer.step()] has run once and before any
    STEP line. *)
Theorem missing_gradient_raises (w : world (F := F)) (p : nat) :
  (forall n, oracle w n = None) ->
  is_distributed (penv w) = true ->
  (exists d, dtype_argument w = Some d /\ In d recognised_dtypes) ->
  (exists b, int_argument w "batch_size" = Some b /\ 0 <= b) ->
  (forall q, 1 < global_size (penv w) -> In q (params_for_all_reduce w) ->
             grad_after_backward w 0 q = true) ->
  1 < group_count (penv w) ->
  In p (params_for_replicas_all_reduce w) ->
  grad_after_backward w 0 p = false ->
  fst (run w) = Raised (grad_type_error 123) /\
  iterations (trace (snd (run w))) = 0%nat /\
  step_times (trace (snd (run w))) = [] /\
  summaries (trace (snd (run w))) = [].
Proof.
  intros Hq Hdist (d & Hd & Hrec) (b & Hb & Hb0) Hg Hgc Hin Hp.
  assert (Hwp : wp (script w) (fun _ _ => False)
            (fun r s => r = grad_type_error 123 /\ progress [] 0 s)
            initial).
  { assert (HI : progress [] 0 (initial (F := F))) by (repeat split).
    unfold script, ExampleModel, random_.
    repeat pg_step.
    2: { unfold dtype_argument in Hd. fold (parsed w) in Hparsed.
         rewrite Hparsed in Hd. discriminate. }
    pose proof (typed_local_rank ns (local_device_index (penv w)) Htyped) as Htyped'.
    unfold check_distributed. rewrite Hdist. simpl negb. cbv iota.
    repeat pg_step.
    2: { exfalso. apply recognised_torch_dtype in Hrec. apply Hrec.
         unfold dtype_argument in Hd. rewrite Hparsed in Hd.
         rewrite lookup_insert_ne in Hattr6 by discriminate.
         rewrite Hattr6 in Hd. congruence. }
    assert (Hz : (z <? 0)%Z = false).
    { unfold int_argument in Hb. rewrite Hparsed in Hb.
      rewrite lookup_insert_ne in Hattr by discriminate.
      rewrite Hattr in Hb. injection Hb as ->. apply Z.ltb_ge. exact Hb0. }
    unfold LongTensor. apply wp_bind. pg_step.
    rewrite Hz. repeat pg_step.
    change (Z.to_nat num_steps) with 100%nat.
    change (seq 0 100) with (0%nat :: seq 1 99).
    cbn [for_each]. apply wp_bind.
    eapply wp_mono;
      [apply (step_missing_gradient w _ _ _ 0%nat p [] 0%nat); assumption
      | intros ? ? []
      | let h := fresh in intros ? ? h; exact h]. }
  apply wp_run in Hwp. destruct (run w) as [[[]|r] s]; [contradiction|].
  destruct Hwp as [-> (Ht & Hn & Hs)]. simpl. auto.
Qed.

Lemma progress_lines times n k (s : state (F := F)) :
  progress times n s -> map fst times = seq 0 k -> (k <= 100)%nat ->
  lines_in_order s.
Proof.
  intros (Ht & _ & Hs) Hfst Hk. exists k. rewrite Ht. auto.
Qed.

Lemma seq_split_from : forall l1 k n (x : nat) l2,
  seq k n = l1 ++ x :: l2 ->
  l1 = seq k (List.length l1) /\ x = (k + List.length l1)%nat /\
  (List.length l1 < n)%nat.
Proof.
  induction l1 as [|a l1 IH]; intros k n x l2 Heq;
    destruct n as [|n]; try discriminate Heq; simpl in Heq.
  - injection Heq as <- _. simpl. split; [reflexivity|]. lia.
  - injection Heq as <- Heq. apply IH in Heq as (Hl & Hx & Hn).
    simpl. split; [f_equal; exact Hl|]. lia.
Qed.

Lemma seq_split n l1 (x : nat) l2 :
  seq 0 n = l1 ++ x :: l2 -> l1 = seq 0 x /\ (x < n)%nat.
Proof.
  intros Heq. apply seq_split_from in Heq as (Hl & Hx & Hn).
  simpl in Hx. subst x. auto.
Qed.

Ltac lines_solve i Hfst :=
  first [ eapply (progress_lines _ _ i); [eassumption | exact Hfst | lia]
        | eapply (progress_lines _ _ (S i));
          [eassumption
          | rewrite map_app, Hfst, seq_S; reflexivity
          | lia] ].

Lemma reduce_lines (w : world (F := F)) line i ps z g times n k
    (s : state (F := F)) :
  map fst times = seq 0 k -> (k <= 100)%nat ->
  progress times n s ->
  wp (reduce_grads w line i ps z g) (fun _ s' => progress times n s')
     (fun _ s' => lines_in_order s') s.
Proof.
  intros Hfst Hk HI. unfold reduce_grads.
  apply (wp_for_each_inv _ (progress times n)); [exact HI|].
  clear s HI. intros _ p s _ HI.
  repeat pr_step ltac:(lines_solve k Hfst). assumption.
Qed.

Lemma step_lines (w : world (F := F)) args y avg i times n
    (s : state (F := F)) :
  map fst times = seq 0 i -> (i < 100)%nat ->
  typed args -> progress times n s ->
  wp (step w (penv w) args y avg i)
     (fun _ s' => exists t, progress (times ++ [(i, t)]) (S n) s')
     (fun _ s' => lines_in_order s') s.
Proof.
  intros Hfst Hi Ht HI. unfold step.
  repeat (repeat pr_step ltac:(lines_solve i Hfst);
          try (eapply wp_mono;
               [eapply (reduce_lines w _ _ _ _ _ times _ i);
                [exact Hfst | lia | eassumption]
               | intros ? ? ?HI; cbv beta in *
               | let h := fresh in intros ? ? h; exact h])).
  all: eexists; eassumption.
Qed.

(** X13.  However a run ends, the STEP lines it has handed to dist_print
    are those of the steps 0, ..., k-1 in this order, for some k <= 100,
    and a Summary line has been handed to it only after all 100 of them,
    and only once. *)
Theorem step_lines_in_order (w : world (F := F)) :
  lines_in_order (snd (run w)).
Proof.
  assert (Hwp : wp (script w) (fun _ s => lines_in_order s)
                   (fun _ s => lines_in_order s) initial).
  { assert (HI : progress [] 0 (initial (F := F))) by (repeat split).
    assert (Hfst0 : map fst (@nil (nat * F)) = seq 0 0) by reflexivity.
    unfold script, ExampleModel, random_, LongTensor, check_distributed.
    repeat pr_step ltac:(lines_solve 0%nat Hfst0).
    pose proof (typed_local_rank ns (local_device_index (penv w)) Htyped) as Htyped'.
    repeat pr_step ltac:(lines_solve 0%nat Hfst0).
    change (Z.to_nat num_steps) with 100%nat.
    match goal with
    | |- wp (for_each _ ?body ?acc) _ _ ?s0 =>
        eapply wp_mono;
          [apply (wp_for_each body
                    (fun done _ s => exists times n,
                       progress times n s /\ map fst times = done)
                    (fun _ s => lines_in_order s) (seq 0 100) [] acc s0)
          | cbn [app]; intros avg s' (times & n & HP & Hfst); cbv beta
          | let h := fresh in intros ? ? h; exact h]
    end.
    - exists [], 0%nat. split; [assumption | reflexivity].
    - intros l1 x l2 avg s1 Heq (times & n & HP & Hfst).
      apply seq_split in Heq as [-> Hx].
      eapply wp_mono;
        [apply (step_lines w _ _ avg x times n s1); assumption
        | | let h := fresh in intros ? ? h; exact h].
      intros avg' s' (t & HP'). exists (times ++ [(x, t)]), (S n).
      split; [exact HP'|]. rewrite map_app, Hfst. reflexivity.
    - destruct HP as (Ht & _ & Hs).
      assert (Hfin : lines_in_order
                (called (Edist_print (MSummary (fdiv avg (of_int 10)))) s')).
      { exists 100%nat. split; [lia|]. simpl trace.
        rewrite step_times_snoc, summaries_snoc, Ht, Hs. simpl.
        rewrite app_nil_r. split; [exact Hfst|]. right. eauto. }
      apply wp_call; intros; exact Hfin. }
  apply wp_run in Hwp. destruct (run w) as [[a|r] s]; exact Hwp.
Qed.

(** X14.  Lines 46 and 94 use the ranks the library reports: the device
    line prints [global_rank], [data_rank] and [model_rank] of
    [parallel_env], and the generator that draws the input is seeded with
    [parallel_env.global_rank]. *)
Theorem ranks_follow_environment (w : world (F := F)) :
  (forall r d m, In (Eprint (MDevice r d m)) (trace (snd (run w))) ->
     r = global_rank (penv w) /\ d = data_rank (penv w) /\
     m = model_rank (penv w)) /\
  (forall sd, In (Emanual_seed sd) (trace (snd (run w))) ->
     sd = global_rank (penv w)).
Proof.
  pose proof (script_wired w) as Hw. split.
  - intros r d m Hi. exact (in_trace w _ _ Hw Hi).
  - intros sd Hi. exact (in_trace w _ _ Hw Hi).
Qed.

Lemma parser_dest_inj (a b : argument F) :
  In a parser -> In b parser -> dest a = dest b -> a = b.
Proof.
  unfold parser, add_argument, ArgumentParser. simpl.
  intros Ha Hb.
  repeat (destruct Ha as [<-|Ha]; [|]); try contradiction;
  repeat (destruct Hb as [<-|Hb]; [|]); try contradiction;
  simpl; intros Hd; try reflexivity; discriminate Hd.
Qed.

Lemma defaults_lookup (a : argument F) d :
  In a parser -> default a = Some d -> defaults parser !! dest a = Some d.
Proof.
  intros Ha. unfold parser, add_argument, ArgumentParser in Ha. simpl in Ha.
  repeat (destruct Ha as [<-|Ha]; [|]); try contradiction; simpl;
    try discriminate; intros [= <-]; vm_compute; reflexivity.
Qed.

Lemma consume_keeps pi pf (a : argument F) d :
  In a parser ->
  forall n toks (ns ns' : gmap string (value F)),
  (List.length toks <= n)%nat ->
  (forall tok e, In tok toks -> classify parser tok <> Optional a e) ->
  ns !! dest a = Some d ->
  consume pi pf parser toks ns = Normal ns' ->
  ns' !! dest a = Some d.
Proof.
  intros Ha. induction n as [|n IH]; intros toks ns ns' Hlen Hno Hns.
  - destruct toks; [|simpl in Hlen; lia]. simpl. intros [= <-]. exact Hns.
  - destruct toks as [|tok rest]; simpl.
    { intros [= <-]. exact Hns. }
    simpl in Hlen.
    destruct (classify parser tok) as [|a' explicit| |] eqn:Hc;
      try discriminate.
    assert (Hne : dest a' <> dest a).
    { intros Heq.
      apply (parser_dest_inj a' a (classify_In _ _ _ _ Hc) Ha) in Heq.
      subst a'. exact (Hno tok explicit (or_introl eq_refl) Hc). }
    destruct (action a'); try discriminate.
    + destruct explicit as [x|].
      * destruct (convert pi pf ty x) as [v|]; [|discriminate].
        apply IH; [lia | intros; apply Hno; right; assumption|].
        rewrite lookup_insert_ne by exact Hne. exact Hns.
      * destruct rest as [|x rest']; [discriminate|].
        destruct (classify parser x); try discriminate.
        destruct (convert pi pf ty x) as [v|]; [|discriminate].
        apply IH; [simpl in Hlen; lia
                  | intros; apply Hno; right; right; assumption|].
        rewrite lookup_insert_ne by exact Hne. exact Hns.
    + destruct explicit; [discriminate|].
      apply IH; [lia | intros; apply Hno; right; assumption|].
      rewrite lookup_insert_ne by exact Hne. exact Hns.
Qed.

(** X15.  An option that the command line does not give keeps the default
    of its [add_argument] line (27-37) in the namespace [parse_args]
    returns. *)
Theorem absent_option_keeps_default pi pf (a : argument F) d toks ns :
  In a parser -> default a = Some d ->
  (forall tok e, In tok toks -> classify parser tok <> Optional a e) ->
  parse_args pi pf parser toks = Normal ns ->
  ns !! dest a = Some d.
Proof.
  intros Ha Hd Hno. unfold parse_args.
  apply (consume_keeps pi pf a d Ha (List.length toks)); [lia | exact Hno|].
  apply defaults_lookup; assumption.
Qed.

(** X16.  [type=int] and [type=float] are enforced by argparse: when the
    command line starts with one of the script's options followed by a
    value that the option's type does not accept, [parse_args] leaves
    through [sys.exit]. *)
Theorem unconvertible_value_exits pi pf (a : argument F) ty flag v rest :
  In a parser -> action a = store ty -> In flag (option_strings a) ->
  convert pi pf ty v = None ->
  parse_args pi pf parser (flag :: v :: rest) = Raised SystemExit.
Proof.
  intros Ha Hact Hflag Hconv.
  assert (Hc : classify parser flag = Optional a None).
  { unfold parser, add_argument, ArgumentParser in Ha. simpl in Ha.
    repeat (destruct Ha as [<-|Ha]; [|]); try contradiction;
      simpl in Hact; try discriminate Hact;
      simpl in Hflag; destruct Hflag as [<-|[]]; reflexivity. }
  unfold parse_args. cbn [consume]. rewrite Hc, Hact.
  destruct (classify parser v); try reflexivity.
  rewrite Hconv. reflexivity.
Qed.

End Extras.

(** * The theorems on the sample worlds *)

Lemma not_distributed_raises_witness :
  (forall n, (n < 3)%nat -> oracle w_single n = None) /\
  (exists ns, parsed w_single = Normal ns) /\
  is_distributed (penv w_single) = false /\
  fst (run w_single) = Raised not_distributed_error /\
  trace (snd (run w_single)) =
    [Einit_affinity; Elogging_basicConfig; Eparse_args (argv w_single);
     Einit_data_model_parallel] /\
  Forall (fun e => construction_or_training e = false)
         (trace (snd (run w_single))).
Proof.
  assert (H1 : forall n, (n < 3)%nat -> oracle w_single n = None)
    by (intros n Hn; reflexivity).
  assert (Hp : match parsed w_single with
               | Normal _ => true
               | Raised _ => false
               end = true) by (vm_compute; reflexivity).
  assert (H2 : exists ns, parsed w_single = Normal ns)
    by (destruct (parsed w_single); [eauto | discriminate Hp]).
  assert (H3 : is_distributed (penv w_single) = false) by reflexivity.
  split; [exact H1|]. split; [exact H2|]. split; [exact H3|].
  exact (not_distributed_raises w_single H1 H2 H3).
Defined.

Lemma hundred_steps_witness :
  valid_run w_valid /\
  fst (run w_valid) = Normal tt /\
  iterations (trace (snd (run w_valid))) = 100%nat /\
  map fst (step_times (trace (snd (run w_valid)))) = seq 0 100 /\
  exists v t, trace (snd (run w_valid)) = t ++ [Edist_print (MSummary v)] /\
              summaries t = [] /\
              summaries (trace (snd (run w_valid))) = [v].
Proof.
  assert (Hv : valid_run w_valid).
  { constructor.
    - intros n. reflexivity.
    - reflexivity.
    - exists "float16". split; [vm_compute; reflexivity | simpl; tauto].
    - exists 3. split; [vm_compute; reflexivity | lia].
    - intros i p. reflexivity. }
  split; [exact Hv|]. exact (hundred_steps w_valid Hv).
Defined.

Lemma no_global_reduction_witness :
  Forall (fun p => grad_is_not_None p = false) (parameters w_valid) /\
  params_for_all_reduce w_valid = [] /\
  params_for_replicas_all_reduce w_valid =
    seq 0 (List.length (parameters w_valid)) /\
  Forall (fun e => global_reduction e = false) (trace (snd (run w_valid))).
Proof.
  assert (Hn : Forall (fun p => grad_is_not_None p = false)
                 (parameters w_valid))
    by (repeat constructor).
  split; [exact Hn|]. exact (no_global_reduction w_valid Hn).
Defined.

Lemma no_script_raise_witness :
  is_distributed (penv w_failing) = true /\
  dtype_argument w_failing = Some "float16" /\
  In "float16" recognised_dtypes /\
  fst (run w_failing) = Raised (LibraryError out_of_memory) /\
  ~ script_raise (LibraryError out_of_memory).
Proof.
  assert (H1 : is_distributed (penv w_failing) = true) by reflexivity.
  assert (H2 : dtype_argument w_failing = Some "float16")
    by (vm_compute; reflexivity).
  assert (H3 : In "float16" recognised_dtypes) by (simpl; tauto).
  assert (H4 : fst (run w_failing) = Raised (LibraryError out_of_memory))
    by (vm_compute; reflexivity).
  split; [exact H1|]. split; [exact H2|]. split; [exact H3|].
  split; [exact H4|].
  exact (no_script_raise w_failing "float16" H1 H2 H3 _ H4).
Defined.

Lemma summary_is_mean_of_last_ten_witness :
  valid_run w_valid /\
  let times := step_times (trace (snd (run w_valid))) in
  let last10 := List.filter (fun p => (90 <=? fst p)%nat) times in
  map fst times = seq 0 100 /\
  map fst last10 = seq 90 10 /\
  summaries (trace (snd (run w_valid))) =
    [fdiv (fold_left fadd (map snd last10) (of_int 0)) (of_int 10)].
Proof.
  assert (Hv : valid_run w_valid).
  { constructor.
    - intros n. reflexivity.
    - reflexivity.
    - exists "float16". split; [vm_compute; reflexivity | simpl; tauto].
    - exists 3. split; [vm_compute; reflexivity | lia].
    - intros i p. reflexivity. }
  split; [exact Hv|]. exact (summary_is_mean_of_last_ten w_valid Hv).
Defined.

(** On [w_valid] the step times grow, and the summary is not the mean of
    all 100 of them. *)
Example summary_is_not_the_overall_mean :
  let times := map snd (step_times (trace (snd (run w_valid)))) in
  exists v, summaries (trace (snd (run w_valid))) = [v] /\
            Qeq_bool v (fold_left Qplus times 0%Q / inject_Z 100)%Q = false.
Proof.
  eexists. split; vm_compute; reflexivity.
Qed.

Lemma phases_in_order_witness :
  fst (run w_valid) = Normal tt /\
  last_phase 0 (trace (snd (run w_valid))) = 4%nat /\
  milestones (trace (snd (run w_valid))) = schedule /\
  (forall n, (n < 3)%nat -> oracle w_both n = None) /\
  is_distributed (penv w_both) = false /\
  dtype_argument w_both = Some "int8" /\
  ~ In "int8" recognised_dtypes /\
  in_order 0 (trace (snd (run w_both))) = true /\
  scheduled (snd (run w_both)) /\
  fst (run w_both) = Raised not_distributed_error.
Proof.
  assert (H0 : fst (run w_valid) = Normal tt) by (vm_compute; reflexivity).
  assert (H1 : forall n, (n < 3)%nat -> oracle w_both n = None)
    by (intros n Hn; reflexivity).
  assert (H2 : is_distributed (penv w_both) = false) by reflexivity.
  assert (H3 : dtype_argument w_both = Some "int8") by (vm_compute; reflexivity).
  assert (H4 : ~ In "int8" recognised_dtypes)
    by (simpl; intros [H|[H|[H|[]]]]; discriminate H).
  split; [exact H0|].
  split; [exact (proj1 (proj1 (proj2 (proj2 (phases_in_order w_valid))) H0))|].
  split; [exact (proj2 (proj1 (proj2 (proj2 (phases_in_order w_valid))) H0))|].
  split; [exact H1|]. split; [exact H2|]. split; [exact H3|].
  split; [exact H4|].
  split; [exact (proj1 (phases_in_order w_both))|].
  split; [exact (proj1 (proj2 (phases_in_order w_both)))|].
  exact (proj2 (proj2 (proj2 (phases_in_order w_both))) "int8" H1 H2 H3 H4).
Defined.

Lemma library_exception_propagates_witness :
  (30 < ncalls (snd (run w_failing)))%nat /\
  oracle w_failing 30 = Some out_of_memory /\
  fst (run w_failing) = Raised (LibraryError out_of_memory) /\
  ncalls (snd (run w_failing)) = 31%nat /\
  List.last (trace (snd (run w_failing))) Einit_affinity = Ebackward.
Proof.
  assert (H1 : (30 < ncalls (snd (run w_failing)))%nat)
    by (apply Nat.ltb_lt; vm_compute; reflexivity).
  assert (H2 : oracle w_failing 30 = Some out_of_memory) by reflexivity.
  split; [exact H1|]. split; [exact H2|].
  destruct (library_exception_propagates w_failing 30 out_of_memory H1 H2)
    as [Hr Hn].
  split; [exact Hr|]. split; [exact Hn|]. vm_compute. reflexivity.
Defined.

Lemma labels_all_zero_witness :
  parsed w_failing = Normal (namespace_of w_failing) /\
  namespace_of w_failing !! "batch_size" = Some (VInt 3) /\
  In (Enll_loss [0; 0; 0]) (trace (snd (run w_failing))) /\
  [0; 0; 0] = repeat 0 (Z.to_nat 3).
Proof.
  assert (Hp : match parsed w_failing with
               | Normal _ => true
               | Raised _ => false
               end = true) by (vm_compute; reflexivity).
  assert (H1 : parsed w_failing = Normal (namespace_of w_failing))
    by (unfold namespace_of; destruct (parsed w_failing);
        [reflexivity | discriminate Hp]).
  assert (H2 : namespace_of w_failing !! "batch_size" = Some (VInt 3))
    by (vm_compute; reflexivity).
  assert (H3 : In (Enll_loss [0; 0; 0]) (trace (snd (run w_failing))))
    by (apply (nth_error_In _ 31); vm_compute; reflexivity).
  split; [exact H1|]. split; [exact H2|]. split; [exact H3|].
  exact (labels_all_zero w_failing (namespace_of w_failing) 3 H1 H2 _ H3).
Defined.

(** * The further properties on the sample worlds *)

Lemma device_is_local_device_witness :
  int_argument w_ranked "local_rank" = Some 7 /\
  In (Etorch_device 1) (trace (snd (run w_ranked))) /\
  1 = local_device_index (penv w_ranked).
Proof.
  assert (H1 : int_argument w_ranked "local_rank" = Some 7)
    by (vm_compute; reflexivity).
  assert (H2 : In (Etorch_device 1) (trace (snd (run w_ranked))))
    by (apply (nth_error_In _ 5); vm_compute; reflexivity).
  split; [exact H1|]. split; [exact H2|].
  exact (proj1 (device_is_local_device w_ranked) 1 H2).
Defined.

Lemma divisors_are_group_sizes_witness :
  int_argument w_ranked "group_count" = Some 4 /\
  In (Egrad_div 123 0 2) (trace (snd (run w_ranked))) /\
  ((123%nat = 119%nat /\ 2 = global_size (penv w_ranked)) \/
   (123%nat = 123%nat /\ 2 = group_count (penv w_ranked))).
Proof.
  assert (H1 : int_argument w_ranked "group_count" = Some 4)
    by (vm_compute; reflexivity).
  assert (H2 : In (Egrad_div 123 0 2) (trace (snd (run w_ranked))))
    by (apply (nth_error_In _ 33); vm_compute; reflexivity).
  split; [exact H1|]. split; [exact H2|].
  exact (proj1 (divisors_are_group_sizes w_ranked) 123%nat 0%nat 2 H2).
Defined.

Lemma reductions_are_guarded_witness :
  global_size (penv w_alone) <= 1 /\
  group_count (penv w_alone) <= 1 /\
  (forall p n, ~ In (Egrad_div 119 p n) (trace (snd (run w_alone))) /\
               ~ In (Eall_reduce p global_group) (trace (snd (run w_alone)))) /\
  (forall p n, ~ In (Egrad_div 123 p n) (trace (snd (run w_alone))) /\
               ~ In (Eall_reduce p data_group) (trace (snd (run w_alone)))).
Proof.
  assert (H1 : global_size (penv w_alone) <= 1) by (simpl; lia).
  assert (H2 : group_count (penv w_alone) <= 1) by (simpl; lia).
  split; [exact H1|]. split; [exact H2|]. split.
  - exact (proj1 (reductions_are_guarded w_alone) H1).
  - exact (proj1 (proj2 (reductions_are_guarded w_alone)) H2).
Defined.

Lemma tensor_dtype_follows_argument_witness :
  In (Etensor float16) (trace (snd (run w_valid))) /\
  exists ds, dtype_argument w_valid = Some ds /\
             torch_dtype ds = Some float16.
Proof.
  assert (H1 : In (Etensor float16) (trace (snd (run w_valid))))
    by (apply (nth_error_In _ 20); vm_compute; reflexivity).
  split; [exact H1|].
  exact (tensor_dtype_follows_argument w_valid float16 H1).
Defined.

Lemma moe_layer_follows_arguments_witness :
  In (Emoe_layer 2 false 2 2048 2048 2) (trace (snd (run w_valid))) /\
  int_argument w_valid "top" = Some 2 /\
  bool_argument w_valid "fp32_gate" = Some false /\
  int_argument w_valid "num_local_experts" = Some 2 /\
  int_argument w_valid "hidden_size" = Some 2048 /\
  int_argument w_valid "model_dim" = Some 2048 /\
  2 = model_rank (penv w_valid) + 1.
Proof.
  assert (H1 : In (Emoe_layer 2 false 2 2048 2048 2)
                  (trace (snd (run w_valid))))
    by (apply (nth_error_In _ 8); vm_compute; reflexivity).
  split; [exact H1|].
  exact (proj1 (moe_layer_follows_arguments w_valid) _ _ _ _ _ _ H1).
Defined.

Lemma aux_loss_needs_weight_witness :
  float_argument w_valid "l_aux_wt" = Some 0%Q /\
  ftruthy 0%Q = false /\
  ~ In Eadd_l_aux (trace (snd (run w_valid))).
Proof.
  assert (H1 : float_argument w_valid "l_aux_wt" = Some 0%Q)
    by (vm_compute; reflexivity).
  assert (H2 : ftruthy 0%Q = false) by reflexivity.
  split; [exact H1|]. split; [exact H2|].
  exact (aux_loss_needs_weight w_valid 0%Q H1 H2).
Defined.

Lemma reduced_parameters_are_selected_witness :
  In (Eall_reduce 1 data_group) (trace (snd (run w_valid))) /\
  exists prm, nth_error (parameters w_valid) 1 = Some prm /\
    ((data_group = global_group /\ has_skip_allreduce prm = false /\
      requires_grad prm = true /\ grad_is_not_None prm = true) \/
     (data_group = data_group /\
      (has_skip_allreduce prm = true \/ requires_grad prm = false \/
       grad_is_not_None prm = false))).
Proof.
  assert (H1 : In (Eall_reduce 1 data_group) (trace (snd (run w_valid))))
    by (apply (nth_error_In _ 36); vm_compute; reflexivity).
  split; [exact H1|].
  exact (reduced_parameters_are_selected w_valid 1 data_group H1).
Defined.

Lemma failures_have_causes_witness :
  fst (run w_failing) = Raised (LibraryError out_of_memory) /\
  failure_cause w_failing (LibraryError out_of_memory).
Proof.
  assert (H1 : fst (run w_failing) = Raised (LibraryError out_of_memory))
    by (vm_compute; reflexivity).
  split; [exact H1|].
  exact (failures_have_causes w_failing _ H1).
Defined.

Lemma rejected_command_line_exits_witness :
  (forall n, (n < 2)%nat -> oracle w_badargs n = None) /\
  (forall ns, parsed w_badargs <> Normal ns) /\
  fst (run w_badargs) = Raised SystemExit /\
  trace (snd (run w_badargs)) =
    [Einit_affinity; Elogging_basicConfig; Eparse_args (argv w_badargs)] /\
  ncalls (snd (run w_badargs)) = 2%nat.
Proof.
  assert (H1 : forall n, (n < 2)%nat -> oracle w_badargs n = None)
    by (intros n Hn; reflexivity).
  assert (Hp : match parsed w_badargs with
               | Normal _ => false
               | Raised _ => true
               end = true) by (vm_compute; reflexivity).
  assert (H2 : forall ns, parsed w_badargs <> Normal ns)
    by (intros ns Hns; rewrite Hns in Hp; discriminate Hp).
  split; [exact H1|]. split; [exact H2|].
  exact (rejected_command_line_exits w_badargs H1 H2).
Defined.

Lemma unrecognised_dtype_stops_before_model_witness :
  (forall n, (n < 5)%nat -> oracle w_int8 n = None) /\
  is_distributed (penv w_int8) = true /\
  dtype_argument w_int8 = Some "int8" /\
  ~ In "int8" recognised_dtypes /\
  fst (run w_int8) = Raised (unrecognized_dtype_error "int8") /\
  trace (snd (run w_int8)) =
    [Einit_affinity; Elogging_basicConfig; Eparse_args (argv w_int8);
     Einit_data_model_parallel;
     Eprint (MDevice (global_rank (penv w_int8)) (data_rank (penv w_int8))
               (model_rank (penv w_int8)));
     Etorch_device (local_device_index (penv w_int8))] /\
  default_dtype (snd (run w_int8)) = float32.
Proof.
  assert (H1 : forall n, (n < 5)%nat -> oracle w_int8 n = None)
    by (intros n Hn; reflexivity).
  assert (H2 : is_distributed (penv w_int8) = true) by reflexivity.
  assert (H3 : dtype_argument w_int8 = Some "int8") by (vm_compute; reflexivity).
  assert (H4 : ~ In "int8" recognised_dtypes)
    by (simpl; intros [H|[H|[H|[]]]]; discriminate H).
  split; [exact H1|]. split; [exact H2|]. split; [exact H3|].
  split; [exact H4|].
  exact (unrecognised_dtype_stops_before_model w_int8 "int8" H1 H2 H3 H4).
Defined.

Lemma missing_gradient_raises_witness :
  (forall n, oracle w_no_grad n = None) /\
  is_distributed (penv w_no_grad) = true /\
  (exists d, dtype_argument w_no_grad = Some d /\ In d recognised_dtypes) /\
  (exists b, int_argument w_no_grad "batch_size" = Some b /\ 0 <= b) /\
  (forall q, 1 < global_size (penv w_no_grad) ->
             In q (params_for_all_reduce w_no_grad) ->
             grad_after_backward w_no_grad 0 q = true) /\
  1 < group_count (penv w_no_grad) /\
  In 1%nat (params_for_replicas_all_reduce w_no_grad) /\
  grad_after_backward w_no_grad 0 1 = false /\
  fst (run w_no_grad) = Raised (grad_type_error 123) /\
  iterations (trace (snd (run w_no_grad))) = 0%nat /\
  step_times (trace (snd (run w_no_grad))) = [] /\
  summaries (trace (snd (run w_no_grad))) = [].
Proof.
  assert (H1 : forall n, oracle w_no_grad n = None) by (intros n; reflexivity).
  assert (H2 : is_distributed (penv w_no_grad) = true) by reflexivity.
  assert (H3 : exists d, dtype_argument w_no_grad = Some d /\
                         In d recognised_dtypes)
    by (exists "float16"; split; [vm_compute; reflexivity | simpl; tauto]).
  assert (H4 : exists b, int_argument w_no_grad "batch_size" = Some b /\
                         0 <= b)
    by (exists 3; split; [vm_compute; reflexivity | lia]).
  assert (H5 : forall q, 1 < global_size (penv w_no_grad) ->
                 In q (params_for_all_reduce w_no_grad) ->
                 grad_after_backward w_no_grad 0 q = true)
    by (intros q _ Hq; vm_compute in Hq; contradiction).
  assert (H6 : 1 < group_count (penv w_no_grad)) by (simpl; lia).
  assert (H7 : In 1%nat (params_for_replicas_all_reduce w_no_grad))
    by (vm_compute; tauto).
  assert (H8 : grad_after_backward w_no_grad 0 1 = false) by reflexivity.
  split; [exact H1|]. split; [exact H2|]. split; [exact H3|].
  split; [exact H4|]. split; [exact H5|]. split; [exact H6|].
  split; [exact H7|]. split; [exact H8|].
  exact (missing_gradient_raises w_no_grad 1 H1 H2 H3 H4 H5 H6 H7 H8).
Defined.

Lemma ranks_follow_environment_witness :
  In (Emanual_seed 1) (trace (snd (run w_valid))) /\
  1 = global_rank (penv w_valid).
Proof.
  assert (H1 : In (Emanual_seed 1) (trace (snd (run w_valid))))
    by (apply (nth_error_In _ 16); vm_compute; reflexivity).
  split; [exact H1|].
  exact (proj2 (ranks_follow_environment w_valid) 1 H1).
Defined.

Lemma absent_option_keeps_default_witness :
  In num_tokens_option parser /\
  argparse.default num_tokens_option = Some (VInt 1024) /\
  (forall tok e, In tok (argv w_valid) ->
     argparse.classify parser tok <> argparse.Optional num_tokens_option e) /\
  parsed w_valid = Normal (namespace_of w_valid) /\
  namespace_of w_valid !! "num_tokens" = Some (VInt 1024).
Proof.
  assert (H1 : In num_tokens_option parser) by (vm_compute; tauto).
  assert (H2 : argparse.default num_tokens_option = Some (VInt 1024))
    by reflexivity.
  assert (H3 : forall tok e, In tok (argv w_valid) ->
                 argparse.classify parser tok <>
                 argparse.Optional num_tokens_option e)
    by (intros tok e [<-|[<-|[<-|[<-|[]]]]]; vm_compute; congruence).
  assert (Hp : match parsed w_valid with
               | Normal _ => true
               | Raised _ => false
               end = true) by (vm_compute; reflexivity).
  assert (H4 : parsed w_valid = Normal (namespace_of w_valid))
    by (unfold namespace_of; destruct (parsed w_valid);
        [reflexivity | discriminate Hp]).
  split; [exact H1|]. split; [exact H2|]. split; [exact H3|].
  split; [exact H4|].
  exact (absent_option_keeps_default (py_int w_valid) (py_float w_valid)
           num_tokens_option (VInt 1024) (argv w_valid)
           (namespace_of w_valid) H1 H2 H3 H4).
Defined.

Lemma unconvertible_value_exits_witness :
  In batch_size_option parser /\
  argparse.action batch_size_option = argparse.store argparse.type_int /\
  In "--batch_size" (argparse.option_strings batch_size_option) /\
  argparse.convert (py_int w_badargs) (py_float w_badargs)
    argparse.type_int "many" = None /\
  parsed w_badargs = Raised SystemExit.
Proof.
  assert (H1 : In batch_size_option parser) by (vm_compute; tauto).
  assert (H2 : argparse.action batch_size_option =
               argparse.store argparse.type_int) by reflexivity.
  assert (H3 : In "--batch_size" (argparse.option_strings batch_size_option))
    by (simpl; tauto).
  assert (H4 : argparse.convert (py_int w_badargs) (py_float w_badargs)
                 argparse.type_int "many" = None) by reflexivity.
  split; [exact H1|]. split; [exact H2|]. split; [exact H3|].
  split; [exact H4|].
  exact (unconvertible_value_exits (py_int w_badargs) (py_float w_badargs)
           batch_size_option argparse.type_int "--batch_size" "many" []
           H1 H2 H3 H4).
Defined.
